(** * Catalyst: position bookkeeping, classifier operators, pipeline date
      shifting and the benchmark/treasury cache, as a shallow embedding.

    Conventions of the embedding.
    - Python numbers (int and float) are exact rationals [Q]; results are
      compared with [==].  Rounding error of binary floating point and the
      sign of a floating zero are outside the model.
    - A float NaN in an array is [None] in a cell of type [option Q].
    - Timestamps are integers (nanoseconds since the epoch).
    - A Python call that can raise returns a [result]: [Ok v] or [Raise e]. *)

From Stdlib Require Import ZArith QArith Qround Qabs String List Bool Lia Lqa.
From Stdlib Require Import Permutation.
Import ListNotations.

(** ** Python exceptions and results *)

Inductive exn : Type :=
| PyException (msg : string)   (* raise Exception(msg) *)
| ZeroDivisionError
| ValueError
| TypeError
| InvalidClassifierComparison  (* subclass of TypeError, classifier.py *)
| NoFurtherDataError
| IndexError
| AttributeError
| OSError
| IOError
| HTTPError.

Inductive result (A : Type) : Type :=
| Ok (a : A)
| Raise (e : exn).

Arguments Ok {A} a.
Arguments Raise {A} e.

Definition bind {A B : Type} (r : result A) (k : A -> result B) : result B :=
  match r with
  | Ok a => k a
  | Raise e => Raise e
  end.

Notation "x <- r ;; k" := (bind r (fun x => k))
  (at level 61, r at next level, right associativity).

(** ** Python numerics on [Q] *)

Definition Qlt_bool (x y : Q) : bool := negb (Qle_bool y x).

(** [math.copysign(1, x)]: the magnitude 1 with the sign of [x]; a zero
    counts as positive. *)
Definition copysign1 (x : Q) : Q := if Qlt_bool x 0 then -(1) else 1.

(** Python's true division [x / y]. *)
Definition py_div (x y : Q) : result Q :=
  if Qeq_bool y 0 then Raise ZeroDivisionError else Ok (x / y).

(** Nearest integer, a tie going to the even neighbour (Python 3; Python 2
    rounds a tie away from zero). *)
Definition round_half_even (x : Q) : Z :=
  let f := Qfloor x in
  let d := x - inject_Z f in
  if Qlt_bool d (1 # 2) then f
  else if Qlt_bool (1 # 2) d then (f + 1)%Z
  else if Z.even f then f else (f + 1)%Z.

(** The builtin [round(x, ndigits)]. *)
Definition py_round (x : Q) (ndigits : Z) : Q :=
  inject_Z (round_half_even (x * Qpower 10 ndigits)) / Qpower 10 ndigits.

(** [numpy.floor], as a number again. *)
Definition np_floor (x : Q) : Q := inject_Z (Qfloor x).

(** ** catalyst.assets.Asset

    The asset class is a compiled extension that is not part of this tree.
    The bookkeeping code compares assets and reads [base_currency]; assets
    compare by their [sid]. *)

Record Asset : Type := mkAsset {
  sid : Z;
  base_currency : string
}.

Definition asset_eqb (a b : Asset) : bool := Z.eqb (sid a) (sid b).

(** ** catalyst/finance/transaction.py *)

Module Transaction.

Record Transaction : Type := mk {
  asset : Asset;
  amount : Q;
  dt : Z;
  price : Q;
  order_id : string;
  commission : option Q;          (* None by default *)
  fee_currency : option string;   (* None by default *)
  is_quote_live : bool
}.

(** The attributes of an order that [create_transaction] reads. *)
Record Order : Type := mkOrder {
  order_asset : Asset;
  id : string
}.

(** [create_transaction(order, dt, price, amount)]. *)
Definition create_transaction (order : Order) (dt' : Z) (price' amount' : Q)
  : Transaction :=
  mk (order_asset order) amount' dt' price' (id order) None None false.

End Transaction.

(** ** catalyst/finance/performance/position.py *)

Module Position.

Record Position : Type := mk {
  asset : Asset;
  amount : Q;
  cost_basis : Q;
  last_sale_price : Q;
  last_sale_date : option Z
}.

Definition set_amount (a : Q) (p : Position) : Position :=
  mk (asset p) a (cost_basis p) (last_sale_price p) (last_sale_date p).

Definition set_cost_basis (c : Q) (p : Position) : Position :=
  mk (asset p) (amount p) c (last_sale_price p) (last_sale_date p).

Definition set_last_sale (pr : Q) (d : Z) (p : Position) : Position :=
  mk (asset p) (amount p) (cost_basis p) pr (Some d).

(** [Position.handle_split(asset, ratio)]: the returned cash and the
    position after the split. *)
Definition handle_split (self : Position) (asset' : Asset) (ratio : Q)
  : result (Q * Position) :=
  if negb (asset_eqb (asset self) asset') then
    Raise (PyException "updating split with the wrong asset!")
  else
    raw_share_count <- py_div (amount self) ratio ;;
    let full_share_count := np_floor raw_share_count in
    let fractional_share_count := raw_share_count - full_share_count in
    let new_cost_basis := py_round (cost_basis self * ratio) 2 in
    let self1 := set_cost_basis new_cost_basis self in
    let self2 := set_amount full_share_count self1 in
    let return_cash := py_round (fractional_share_count * new_cost_basis) 2 in
    Ok (return_cash, self2).

(** [txn.dt > self.last_sale_date], after the [is None] test. *)
Definition is_newer (d : Z) (last : option Z) : bool :=
  match last with
  | None => true
  | Some l => (l <? d)%Z
  end.

(** [txn.commission is not None and
     txn.fee_currency == self.asset.base_currency]. *)
Definition commission_applies (self : Position)
    (txn : Transaction.Transaction) : option Q :=
  match Transaction.commission txn, Transaction.fee_currency txn with
  | Some c, Some cur =>
      if String.eqb cur (base_currency (asset self)) then Some c else None
  | _, _ => None
  end.

(** [Position.update(txn)]. *)
Definition update (self : Position) (txn : Transaction.Transaction)
  : result Position :=
  if negb (asset_eqb (asset self) (Transaction.asset txn)) then
    Raise (PyException "updating position with txn for a different asset")
  else
    let total_shares := amount self + Transaction.amount txn in
    let self1 :=
      if Qeq_bool total_shares 0 then
        set_cost_basis 0 self
      else
        let prev_direction := copysign1 (amount self) in
        let txn_direction := copysign1 (Transaction.amount txn) in
        let self' :=
          if negb (Qeq_bool prev_direction txn_direction) then
            if Qlt_bool (Qabs (amount self)) (Qabs (Transaction.amount txn))
            then set_cost_basis (Transaction.price txn) self
            else self
          else
            let prev_cost := cost_basis self * amount self in
            let txn_cost := Transaction.amount txn * Transaction.price txn in
            let total_cost := prev_cost + txn_cost in
            (* total_shares is not zero here: the division cannot raise *)
            set_cost_basis (total_cost / total_shares) self
        in
        if is_newer (Transaction.dt txn) (last_sale_date self') then
          set_last_sale (Transaction.price txn) (Transaction.dt txn) self'
        else self'
    in
    let total_shares' :=
      match commission_applies self txn with
      | Some c => total_shares - c
      | None => total_shares
      end
    in
    Ok (set_amount total_shares' self1).


End Position.

(** ** Sample data

    Concrete assets, positions and transactions used to run the
    definitions. *)

Definition btc_usd : Asset := mkAsset 1 "btc".

Definition flat_position : Position.Position := Position.mk btc_usd 0 0 0 None.

Definition buy_10_at_100 : Transaction.Transaction :=
  Transaction.mk btc_usd 10 1 100 "o1" None None false.

Definition sell_15_at_120 : Transaction.Transaction :=
  Transaction.mk btc_usd (-15) 2 120 "o2" None None false.

Definition sell_5_at_120 : Transaction.Transaction :=
  Transaction.mk btc_usd (-5) 2 120 "o3" None None false.

Definition long_10_at_100 : Position.Position := Position.mk btc_usd 10 100 100 (Some 1%Z).

Definition sell_10_at_130_with_fee : Transaction.Transaction :=
  Transaction.mk btc_usd (-10) 5 130 "o4" (Some (1 # 100)) (Some "btc"%string)
    false.


(** ** catalyst/pipeline/loaders/crypto_pricing_loader.py

    The calendar is a pandas DatetimeIndex of unique sessions, here a list
    of timestamps. *)

Module CryptoPricingLoader.

(** [dates.get_loc(x)]: the position of [x]; [None] stands for the
    KeyError of a missing key. *)
Fixpoint get_loc (dates : list Z) (x : Z) : option nat :=
  match dates with
  | [] => None
  | d :: ds => if (d =? x)%Z then Some O else option_map S (get_loc ds x)
  end.

(** [dates[k]] for an integer [k]: a negative [k] counts from the end, an
    index outside the calendar raises IndexError. *)
Definition getitem (dates : list Z) (k : Z) : result Z :=
  let len := Z.of_nat (length dates) in
  let k' := if (k <? 0)%Z then (len + k)%Z else k in
  if ((k' <? 0) || (len <=? k'))%Z then Raise IndexError
  else match nth_error dates (Z.to_nat k') with
       | Some d => Ok d
       | None => Raise IndexError
       end.

Definition _shift_dates (dates : list Z) (start_date end_date : Z)
    (shift : Z) : result (Z * Z) :=
  start <-
    match get_loc dates start_date with
    | Some i => Ok (Z.of_nat i)
    | None =>
        d0 <- getitem dates 0 ;;
        if (start_date <? d0)%Z then Raise NoFurtherDataError
        else Raise ValueError
    end ;;
  (* Make sure that shifting doesn't push us out of the calendar. *)
  if (start <? shift)%Z then Raise NoFurtherDataError
  else
    end_ <-
      match get_loc dates end_date with
      | Some j => Ok (Z.of_nat j)
      | None =>
          dn <- getitem dates (-1) ;;
          if (dn <? end_date)%Z then Raise NoFurtherDataError
          else Raise ValueError
      end ;;
    a <- getitem dates (start - shift) ;;
    b <- getitem dates (end_ - shift) ;;
    Ok (a, b).

(** An ordered calendar: each session is strictly after the one before. *)
Fixpoint strictly_increasing (dates : list Z) : bool :=
  match dates with
  | [] => true
  | d :: ds =>
      match ds with
      | [] => true
      | d' :: _ => (d <? d')%Z && strictly_increasing ds
      end
  end.

(** The pipeline objects the loader handles.  Arrays, masks, dtypes,
    missing values, adjustments and assets are those of the engine and are
    kept abstract. *)
Section LoadAdjustedArray.

Variables Array Mask ColumnDType MissingValue Adjustment AssetT : Type.

(** [c_raw.astype(c.dtype)]. *)
Variable astype : Array -> ColumnDType -> Array.

(** The attributes of a column that the loader reads. *)
Record BoundColumn : Type := mkBoundColumn {
  name : string;
  dtype : ColumnDType;
  missing_value : MissingValue
}.

(** Equality of columns as dictionary keys. *)
Variable column_eqb : BoundColumn -> BoundColumn -> bool.

(** [AdjustedArray(data, mask, adjustments, missing_value)]: the arguments
    of the constructor; the adjustments map row indices to adjustments. *)
Record AdjustedArray : Type := mkAdjustedArray {
  aa_data : Array;
  aa_mask : Mask;
  aa_adjustments : list (nat * list Adjustment);
  aa_missing_value : MissingValue
}.

(** [out[c] = v] on a dictionary kept as the list of its items: the value
    of a key that is present is replaced, a new key is added at the end. *)
Fixpoint dict_set (out : list (BoundColumn * AdjustedArray))
    (c : BoundColumn) (v : AdjustedArray)
  : list (BoundColumn * AdjustedArray) :=
  match out with
  | [] => [(c, v)]
  | (c', v') :: rest =>
      if column_eqb c' c then (c', v) :: rest
      else (c', v') :: dict_set rest c v
  end.

(** [CryptoPricingLoader.load_adjusted_array(columns, dates, assets, mask)]
    for a loader with the calendar [all_sessions] and a reader whose
    [load_raw_arrays] is given. *)
Definition load_adjusted_array (all_sessions : list Z)
    (load_raw_arrays :
       list string -> Z -> Z -> list AssetT -> result (list Array))
    (columns : list BoundColumn) (dates : list Z) (assets : list AssetT)
    (mask : Mask) : result (list (BoundColumn * AdjustedArray)) :=
  first <- getitem dates 0 ;;
  last <- getitem dates (-1) ;;
  shifted <- _shift_dates all_sessions first last 1 ;;
  let start_date := fst shifted in
  let end_date := snd shifted in
  let colnames := map name columns in
  raw_arrays <- load_raw_arrays colnames start_date end_date assets ;;
  Ok (fold_left
        (fun out (cr : BoundColumn * Array) =>
           dict_set out (fst cr)
             (mkAdjustedArray (astype (snd cr) (dtype (fst cr))) mask []
                (missing_value (fst cr))))
        (combine columns raw_arrays) []).

End LoadAdjustedArray.

Arguments name {ColumnDType MissingValue} _.
Arguments dtype {ColumnDType MissingValue} _.
Arguments missing_value {ColumnDType MissingValue} _.
Arguments aa_data {Array Mask MissingValue Adjustment} _.
Arguments aa_mask {Array Mask MissingValue Adjustment} _.
Arguments aa_adjustments {Array Mask MissingValue Adjustment} _.
Arguments aa_missing_value {Array Mask MissingValue Adjustment} _.
Arguments dict_set {Array Mask ColumnDType MissingValue Adjustment}
  column_eqb out c v.
Arguments load_adjusted_array
  {Array Mask ColumnDType MissingValue Adjustment AssetT}
  astype column_eqb all_sessions load_raw_arrays columns dates assets mask.

End CryptoPricingLoader.

(** A price column, with arrays as lists of numbers and assets as sids. *)
Definition close_column : CryptoPricingLoader.BoundColumn string Q :=
  CryptoPricingLoader.mkBoundColumn string Q "close" "float64"%string 0%Q.

Definition column_name_eqb (a b : CryptoPricingLoader.BoundColumn string Q)
  : bool :=
  String.eqb (CryptoPricingLoader.name a) (CryptoPricingLoader.name b).

(** A reader that returns one constant array per requested column. *)
Definition constant_reader (v : Q) (colnames : list string)
    (start_date end_date : Z) (assets : list Z) : result (list (list Q)) :=
  Ok (map (fun _ => [v]) colnames).

Definition sample_calendar : list Z := [10; 20; 30; 40]%Z.

(** ** catalyst/pipeline/classifiers/classifier.py *)

(** Python scalars that meet a classifier: numbers (instances of
    [numbers.Number]), strings and [None]. *)
Inductive number : Type :=
| NInt (z : Z)
| NFloat (q : Q).

Inductive scalar : Type :=
| SNum (n : number)
| SStr (s : string)
| SNone.


Definition number_value (n : number) : Q :=
  match n with
  | NInt z => inject_Z z
  | NFloat q => q
  end.

(** [int(n)]: truncation toward zero. *)
Definition py_int (n : number) : Z :=
  match n with
  | NInt z => z
  | NFloat q => if Qlt_bool q 0 then Qceiling q else Qfloor q
  end.

(** Python's [==] on scalars: numbers compare by value, strings by
    content, [None] equals only itself. *)
Definition py_eq (a b : scalar) : bool :=
  match a, b with
  | SNum x, SNum y => Qeq_bool (number_value x) (number_value y)
  | SStr s, SStr t => String.eqb s t
  | SNone, SNone => true
  | _, _ => false
  end.

(** [isinstance(v, Number)], [isinstance(v, int)] and
    [isinstance(v, (bytes, unicode))]. *)
Definition isinstance_Number (v : scalar) : bool :=
  match v with SNum _ => true | _ => false end.




(** [v in s] for a frozenset [s]. *)
Definition set_contains (v : scalar) (s : list scalar) : bool :=
  existsb (py_eq v) s.

Inductive DType : Type :=
| int64_dtype
| categorical_dtype.

Definition dtype_eqb (a b : DType) : bool :=
  match a, b with
  | int64_dtype, int64_dtype => true
  | categorical_dtype, categorical_dtype => true
  | _, _ => false
  end.

(** A numexpr expression over the single bound input [x_0]. *)
Inductive numexpr : Type :=
| X_0
| Lit (v : scalar)
| EqExpr (a b : numexpr)
| NeExpr (a b : numexpr)
| AndExpr (a b : numexpr).

(** The operations handed to [ArrayPredicate]. *)
Inductive array_op : Type :=
| operator_eq
| operator_ne
| vectorized_is_element
| LabelArray_element_of.

Inductive oparg : Type :=
| ArgScalar (v : scalar)
| ArgSet (s : list scalar).

Module Classifier.

(** The attributes of a classifier term that its operators read. *)
Record Classifier : Type := mk {
  dtype : DType;
  missing_value : scalar
}.

(** The filters the operators construct. *)
Inductive Filter : Type :=
| NumExprFilter (expr : numexpr) (binds : list Classifier)
| ArrayPredicate (term : Classifier) (op : array_op) (opargs : list oparg).

(** [Classifier.eq(other)]. *)
Definition eq (self : Classifier) (other : scalar) : result Filter :=
  if py_eq other (missing_value self) then Raise ValueError
  else if negb (Bool.eqb (isinstance_Number other)
                         (dtype_eqb (dtype self) int64_dtype))
  then Raise InvalidClassifierComparison
  else
    match other with
    | SNum n =>
        (* "x_0 == {other}".format(other=int(other)) *)
        Ok (NumExprFilter (EqExpr X_0 (Lit (SNum (NInt (py_int n)))))
              [self])
    | _ => Ok (ArrayPredicate self operator_eq [ArgScalar other])
    end.

(** [Classifier.__ne__(other)]. *)
Definition __ne__ (self : Classifier) (other : scalar) : result Filter :=
  if negb (Bool.eqb (isinstance_Number other)
                    (dtype_eqb (dtype self) int64_dtype))
  then Raise InvalidClassifierComparison
  else
    match other with
    | SNum n =>
        (* "((x_0 != {other}) & (x_0 != {missing}))"
             .format(other=int(other), missing=self.missing_value) *)
        Ok (NumExprFilter
              (AndExpr (NeExpr X_0 (Lit (SNum (NInt (py_int n)))))
                       (NeExpr X_0 (Lit (missing_value self))))
              [self])
    | _ => Ok (ArrayPredicate self operator_ne [ArgScalar other])
    end.


(** The value of a numexpr operand at a cell holding [x]. *)
Definition operand (e : numexpr) (x : scalar) : option scalar :=
  match e with
  | X_0 => Some x
  | Lit v => Some v
  | _ => None
  end.

(** Modelled from the spec: the evaluation of a numexpr expression
    (catalyst.pipeline.filters.NumExprFilter is not in this tree), at one
    cell of the bound input: [==], [!=] and [&] read as in Python. *)
Fixpoint eval_numexpr (e : numexpr) (x : scalar) : bool :=
  match e with
  | EqExpr a b =>
      match operand a x, operand b x with
      | Some u, Some v => py_eq u v
      | _, _ => false
      end
  | NeExpr a b =>
      match operand a x, operand b x with
      | Some u, Some v => negb (py_eq u v)
      | _, _ => false
      end
  | AndExpr a b => eval_numexpr a x && eval_numexpr b x
  | X_0 | Lit _ => false
  end.

(** Modelled from the spec: the element-wise predicates of
    catalyst.lib.labelarray.LabelArray and of numpy that [ArrayPredicate]
    applies (neither is in this tree), at one cell.  A LabelArray
    comparison is true where the label compares so with [other] and the
    cell does not carry the missing value; membership is true where the
    value is a member of the choices. *)
Definition apply_op (term : Classifier) (op : array_op)
    (opargs : list oparg) (x : scalar) : bool :=
  match op, opargs with
  | operator_eq, [ArgScalar other] =>
      py_eq x other && negb (py_eq x (missing_value term))
  | operator_ne, [ArgScalar other] =>
      negb (py_eq x other) && negb (py_eq x (missing_value term))
  | vectorized_is_element, [ArgSet choices] => set_contains x choices
  | LabelArray_element_of, [ArgSet choices] =>
      set_contains x choices && negb (py_eq x (missing_value term))
  | _, _ => false
  end.

(** The value of a filter at a cell inside the mask whose input value
    is [x]. *)
Definition filter_at (f : Filter) (x : scalar) : bool :=
  match f with
  | NumExprFilter expr _ => eval_numexpr expr x
  | ArrayPredicate term op opargs => apply_op term op opargs x
  end.

End Classifier.

(** The value that [eq] and [__ne__] compare the cells with: for a number,
    [int(other)]. *)
Definition ne_comparand (other : scalar) : scalar :=
  match other with
  | SNum n => SNum (NInt (py_int n))
  | _ => other
  end.

Definition int_classifier : Classifier.Classifier :=
  Classifier.mk int64_dtype (SNum (NInt (-1))).

Definition string_classifier : Classifier.Classifier :=
  Classifier.mk categorical_dtype (SStr "").

(** ** catalyst/data/loader.py

    The file system, the clock and the remote sources are explicit: a cache
    file is what reading it gives together with its modification time, and
    a remote source is the outcome of each of its calls. *)

Module Loader.

(** A pandas table: its index of dates and one column of values. *)
Record DataFrame : Type := mkDataFrame {
  index : list Z;
  column : list Q
}.

Definition empty (df : DataFrame) : bool :=
  match index df with [] => true | _ => false end.

(** A file of the data directory: what [pd.DataFrame.from_csv] makes of
    it (with its index converted to dates) and [os.path.getmtime]. *)
Record File : Type := mkFile {
  from_csv : result DataFrame;
  mtime : Z
}.

Definition FileSystem : Type := string -> option File.

Definition no_files : FileSystem := fun _ => None.

Definition store (fs : FileSystem) (path : string) (f : File) : FileSystem :=
  fun p => if String.eqb p path then Some f else fs p.

Inductive level : Type := INFO | WARNING | ERROR.

Definition Log : Type := list (level * string).

Inductive LoaderModule : Type := treasuries | treasuries_can.

(** The collaborators outside this file. *)
Record Remote : Type := mkRemote {
  get_benchmark_returns : string -> Z -> Z -> result DataFrame;
  get_treasury_data : LoaderModule -> Z -> Z -> result DataFrame;
  earliest_possible_date : LoaderModule -> Z;
  (* the error, if any, with which writing the file at a path fails *)
  to_csv_error : string -> option exn
}.

Definition ONE_HOUR : Z := (3600 * 1000000000)%Z.

Definition last_modified_time (f : File) : Z := mtime f.

Definition get_data_filepath (name : string) : string :=
  String.append "data/" name.

Definition get_benchmark_filename (symbol : string) : string :=
  String.append symbol "_benchmark.csv".

(** [INDEX_MAPPING.get(symbol, INDEX_MAPPING['SPY'])], without the name
    of the source. *)
Definition INDEX_MAPPING (symbol : string) : LoaderModule * string :=
  if String.eqb symbol "^GSPTSE"
  then (treasuries_can, "treasury_curves_can.csv"%string)
  else (treasuries, "treasury_curves.csv"%string).

(** [except (OSError, IOError, HTTPError)]; HTTPError is an OSError. *)
Definition is_file_or_network_error (e : exn) : bool :=
  match e with
  | OSError | IOError | HTTPError => true
  | _ => false
  end.

(** [except (OSError, IOError, ValueError)]. *)
Definition is_cache_read_error (e : exn) : bool :=
  match e with
  | OSError | IOError | HTTPError | ValueError => true
  | _ => false
  end.

(** [has_data_for_dates(series_or_df, first_date, last_date)]; the
    argument may be [None], which has no index. *)
Definition has_data_for_dates (series_or_df : option DataFrame)
    (first_date last_date : Z) : result bool :=
  match series_or_df with
  | None => Raise AttributeError
  | Some df =>
      match index df with
      | [] => Raise IndexError
      | first :: _ =>
          let last := List.last (index df) first in
          Ok ((first <=? first_date)%Z && (last >=? last_date)%Z)
      end
  end.

Definition cache_miss_record : level * string :=
  (INFO, "Cache at {path} does not have data from {start} to {end}."%string).

(** [_load_cached_data]: the records logged, and the data, [None], or an
    error that is not a cache-read error. *)
Definition _load_cached_data (fs : FileSystem) (filename : string)
    (first_date last_date now : Z) (resource_name : string)
  : Log * result (option DataFrame) :=
  let path := get_data_filepath filename in
  match fs path with
  | None => ([cache_miss_record], Ok None)
  | Some file =>
      (* the try block: [Ok (Some data)] returns, [Ok None] falls out *)
      let body : Log * result (option DataFrame) :=
        match from_csv file with
        | Raise e => ([], Raise e)
        | Ok data =>
            if empty data then ([], Raise ValueError)
            else
              match has_data_for_dates (Some data) first_date last_date with
              | Raise e => ([], Raise e)
              | Ok true => ([], Ok (Some data))
              | Ok false =>
                  let last_download_time := last_modified_time file in
                  if (now - last_download_time <=? ONE_HOUR)%Z then
                    ([(WARNING,
                       "Refusing to download new {resource} data because a download succeeded at {time}."%string)],
                     Ok (Some data))
                  else ([], Ok None)
              end
        end
      in
      match body with
      | (l, Ok (Some data)) => (l, Ok (Some data))
      | (l, Ok None) => (l ++ [cache_miss_record], Ok None)
      | (l, Raise e) =>
          if is_cache_read_error e then
            (l ++ [(INFO,
                    "Loading data for {path} failed with error [{error}]."%string);
                   cache_miss_record],
             Ok None)
          else (l, Raise e)
      end
  end.

(** What a call leaves behind: the files, the log, and the returned value
    (a table or [None]) or the raised error. *)
Record Outcome : Type := mkOutcome {
  files : FileSystem;
  log : Log;
  returned : result (option DataFrame)
}.

(** [data.to_csv(path)] at time [now]. *)
Definition to_csv (remote : Remote) (fs : FileSystem) (path : string)
    (data : DataFrame) (now : Z) : result FileSystem :=
  match to_csv_error remote path with
  | Some e => Raise e
  | None => Ok (store fs path (mkFile (Ok data) now))
  end.

(** The tail shared by both functions: warn when the data still does not
    cover the dates, then [return data]. *)
Definition check_and_return (fs : FileSystem) (l : Log)
    (data : option DataFrame) (first_date last_date : Z) : Outcome :=
  match has_data_for_dates data first_date last_date with
  | Raise e => mkOutcome fs l (Raise e)
  | Ok covered =>
      let l' :=
        if covered then l
        else l ++ [(WARNING,
                    "Still don't have expected data after redownload!"%string)]
      in
      mkOutcome fs l' (Ok data)
  end.

Definition ensure_benchmark_data (remote : Remote) (fs : FileSystem)
    (symbol : string) (first_date last_date now trading_day : Z) : Outcome :=
  let filename := get_benchmark_filename symbol in
  match _load_cached_data fs filename first_date last_date now "benchmark"
  with
  | (l, Raise e) => mkOutcome fs l (Raise e)
  | (l, Ok (Some data)) => mkOutcome fs l (Ok (Some data))
  | (l, Ok None) =>
      let l1 :=
        l ++ [(INFO,
               "Downloading benchmark data for {symbol!r} from {first_date} to {last_date}"%string)]
      in
      let failed :=
        (ERROR, "Failed to cache the new benchmark returns"%string) in
      match get_benchmark_returns remote symbol
              (first_date - trading_day)%Z last_date with
      | Raise e =>
          if is_file_or_network_error e
          then mkOutcome fs (l1 ++ [failed]) (Raise e)
          else mkOutcome fs l1 (Raise e)
      | Ok data =>
          match to_csv remote fs (get_data_filepath filename) data now with
          | Raise e =>
              if is_file_or_network_error e
              then mkOutcome fs (l1 ++ [failed]) (Raise e)
              else mkOutcome fs l1 (Raise e)
          | Ok fs' => check_and_return fs' l1 (Some data) first_date last_date
          end
      end
  end.

Definition ensure_treasury_data (remote : Remote) (fs : FileSystem)
    (symbol : string) (first_date last_date now : Z) : Outcome :=
  let '(loader_module, filename) := INDEX_MAPPING symbol in
  let first_date :=
    Z.max first_date (earliest_possible_date remote loader_module) in
  match _load_cached_data fs filename first_date last_date now "treasury"
  with
  | (l, Raise e) => mkOutcome fs l (Raise e)
  | (l, Ok (Some data)) => mkOutcome fs l (Ok (Some data))
  | (l, Ok None) =>
      (* here [data] is None *)
      let l1 :=
        l ++ [(INFO, "Downloading treasury data for {symbol!r}."%string)] in
      let failed := (ERROR, "failed to cache treasury data"%string) in
      match get_treasury_data remote loader_module first_date last_date with
      | Raise e =>
          if is_file_or_network_error e
          then check_and_return fs (l1 ++ [failed]) None first_date last_date
          else mkOutcome fs l1 (Raise e)
      | Ok data =>
          match to_csv remote fs (get_data_filepath filename) data now with
          | Raise e =>
              if is_file_or_network_error e
              then check_and_return fs (l1 ++ [failed]) (Some data)
                     first_date last_date
              else mkOutcome fs l1 (Raise e)
          | Ok fs' => check_and_return fs' l1 (Some data) first_date last_date
          end
      end
  end.

End Loader.

Definition january : Loader.DataFrame :=
  Loader.mkDataFrame [100; 200; 300]%Z [1; 2; 3].

(** A remote source whose every download fails with HTTPError. *)
Definition remote_down : Loader.Remote :=
  Loader.mkRemote (fun _ _ _ => Raise HTTPError)
                  (fun _ _ _ => Raise HTTPError)
                  (fun _ => 0%Z)
                  (fun _ => None).

(** A remote source that delivers [january], on a disk that cannot be
    written. *)
Definition remote_up_disk_full : Loader.Remote :=
  Loader.mkRemote (fun _ _ _ => Ok january)
                  (fun _ _ _ => Ok january)
                  (fun _ => 0%Z)
                  (fun _ => Some OSError).

(** ** Quantiles (classifier.py) and catalyst.lib.quantiles

    A float array is a list of rows of cells; a cell is [Some v] for a
    number and [None] for NaN. *)

Module Quantiles.

Definition missing_value : Z := (-1)%Z.

(** [numpy.where(mask, data, nan)] on one row and on an array. *)
Definition where_row (mask : list bool) (data : list (option Q))
  : list (option Q) :=
  map (fun md : bool * option Q => if fst md then snd md else None)
      (combine mask data).

Definition np_where (mask : list (list bool)) (data : list (list (option Q)))
  : list (list (option Q)) :=
  map (fun md : list bool * list (option Q) => where_row (fst md) (snd md))
      (combine mask data).

(** The cells of a row that hold a number, each with its position,
    counting positions from [i]. *)
Fixpoint valid_from (i : nat) (row : list (option Q)) : list (Q * nat) :=
  match row with
  | [] => []
  | None :: r => valid_from (S i) r
  | Some v :: r => (v, i) :: valid_from (S i) r
  end.

(** The order in which the cells of a row are ranked: by value, cells of
    equal value by position. *)
Definition before (a b : Q * nat) : bool :=
  Qlt_bool (fst a) (fst b)
  || (Qeq_bool (fst a) (fst b) && (snd a <? snd b)%nat).

(** The number of cells ranked before [c]. *)
Definition rank (cells : list (Q * nat)) (c : Q * nat) : nat :=
  length (filter (fun a => before a c) cells).

(** The group of the cell of rank [r] among [n] cells. *)
Definition bin_of_rank (bins : Z) (n r : nat) : Z :=
  (Z.of_nat r * bins / Z.of_nat n)%Z.

Fixpoint qcut_from (cells : list (Q * nat)) (bins : Z) (i : nat)
    (row : list (option Q)) : list (option Q) :=
  match row with
  | [] => []
  | None :: r => None :: qcut_from cells bins (S i) r
  | Some v :: r =>
      Some (inject_Z (bin_of_rank bins (length cells) (rank cells (v, i))))
        :: qcut_from cells bins (S i) r
  end.

(** Modelled from the spec: the binning of one row by
    catalyst.lib.quantiles.quantiles, which is not in this tree.  The
    numbers of the row are put into [bins] equal-population groups coded
    0, 1, ..., in the order of their values: the cell of rank r among n
    numbers goes to group floor(r * bins / n).  A NaN stays NaN. *)
Definition qcut (row : list (option Q)) (bins : Z) : list (option Q) :=
  qcut_from (valid_from 0 row) bins 0 row.

(** Modelled from the spec: catalyst.lib.quantiles.quantiles, which is not
    in this tree, bins every date row on its own. *)
Definition quantiles (data : list (list (option Q))) (bins : Z)
  : list (list (option Q)) :=
  map (fun row => qcut row bins) data.

(** [result[isnan(result)] = self.missing_value], at one cell. *)
Definition fill_missing (x : option Q) : Q :=
  match x with
  | None => inject_Z missing_value
  | Some v => v
  end.

(** [astype(int64_dtype)], at one cell: truncation toward zero. *)
Definition astype_int64 (x : Q) : Z :=
  if Qlt_bool x 0 then Qceiling x else Qfloor x.

(** [Quantiles._compute], with [data = arrays[0]] and
    [bins = self.params['bins']]. *)
Definition _compute (bins : Z) (data : list (list (option Q)))
    (mask : list (list bool)) : list (list Z) :=
  let to_bin := np_where mask data in
  let result := quantiles to_bin bins in
  map (map (fun x => astype_int64 (fill_missing x))) result.

(** What [_compute] makes of one row. *)
Definition compute_row (bins : Z) (mask : list bool) (data : list (option Q))
  : list Z :=
  map (fun x => astype_int64 (fill_missing x)) (qcut (where_row mask data) bins).

(** x / b rounded up. *)
Definition cdiv (x b : Z) : Z := ((x + b - 1) / b)%Z.

Definition is_number (x : option Q) : bool :=
  match x with
  | Some _ => true
  | None => false
  end.

(** How many cells of a row are inside the mask and hold a number. *)
Definition remaining (mask : list bool) (data : list (option Q)) : nat :=
  length (filter (fun md : bool * option Q => fst md && is_number (snd md))
            (combine mask data)).

End Quantiles.

Definition sample_scores : list (list (option Q)) :=
  [[Some 3%Q; Some 1%Q; None; Some 2%Q; Some 9%Q; Some 4%Q];
   [Some 5%Q; Some 5%Q; Some 7%Q; Some 6%Q; None; Some 8%Q]].

Definition sample_mask : list (list bool) :=
  [[true; true; true; true; false; true];
   [true; false; true; true; true; true]].

(** ** catalyst/exchange/exchange_bundle.py

    The chunks in which [process_bar_data] fetches candles. *)

Module ExchangeBundle.

(** [timedelta(minutes=k)], in nanoseconds. *)
Definition timedelta_minutes (k : Z) : Z := (k * 60000000000)%Z.

(** [delta.total_seconds()] of a difference of timestamps. *)
Definition total_seconds (delta : Z) : Q := inject_Z delta / 1000000000.

(** One request for candles: [dict(end=..., bar_count=...)]. *)
Record Chunk : Type := mkChunk {
  chunk_end : Z;
  bar_count : Q
}.

(** The number of periods between [start] and [end] and the frequency
    passed to the exchange, or ValueError('frequency not supported'). *)
Definition delta_periods (data_frequency : string) (start end_ : Z)
  : result (Q * string) :=
  let delta := (end_ - start)%Z in
  if String.eqb data_frequency "minute" then
    Ok (total_seconds delta / 60, "1m"%string)
  else if String.eqb data_frequency "5-minute" then
    Ok (total_seconds delta / 60 / 5, "5m"%string)
  else if String.eqb data_frequency "daily" then
    Ok (total_seconds delta / 60 / 60 / 24, "1d"%string)
  else Raise ValueError.

(** The loop
      while last_chunk_date > start + timedelta(minutes=bar_count):
          chunks.append(dict(end=last_chunk_date, bar_count=bar_count))
          last_chunk_date -= timedelta(minutes=(bar_count + 1))
    run for at most [fuel] tests of its condition; [None] when the fuel
    runs out before the loop ends. *)
Fixpoint chunk_loop (fuel : nat) (start bar_count' last_chunk_date : Z)
    (chunks : list Chunk) : option (list Chunk) :=
  match fuel with
  | O => None
  | S fuel' =>
      if (start + timedelta_minutes bar_count' <? last_chunk_date)%Z then
        chunk_loop fuel' start bar_count'
          (last_chunk_date - timedelta_minutes (bar_count' + 1))%Z
          (chunks ++ [mkChunk last_chunk_date (inject_Z bar_count')])
      else Some chunks
  end.

(** The chunks of [process_bar_data] for an exchange with the given
    [num_candles_limit], once [delta_periods] is known. *)
Definition plan_chunks (fuel : nat) (num_candles_limit : Z) (periods : Q)
    (start end_ : Z) : option (list Chunk) :=
  if Qlt_bool (inject_Z num_candles_limit) periods then
    let bar_count' := num_candles_limit in
    match chunk_loop fuel start bar_count' end_ [] with
    | Some chunks => Some (rev chunks)
    | None => None
    end
  else Some [mkChunk end_ periods].

(** The chunk of [b] bars whose end lies [i] steps of [b + 1] minutes
    before [last]. *)
Definition chunk_back (b last : Z) (i : nat) : Chunk :=
  mkChunk (last - Z.of_nat i * timedelta_minutes (b + 1))%Z (inject_Z b).

End ExchangeBundle.

(** ** Helpers of the statements about classifiers *)


(** A number that is not the integer [m] and truncates to it. *)
Definition beside (m : Z) : number :=
  if (m <? 0)%Z then NFloat (inject_Z m - (1 # 2))
  else NFloat (inject_Z m + (1 # 2)).

(** * Properties *)

Import Position.

Local Open Scope Q_scope.

(** ** Helpers on the numeric layer *)

Lemma Qlt_bool_iff (x y : Q) : Qlt_bool x y = true <-> x < y.
Proof.
  unfold Qlt_bool. rewrite negb_true_iff. split.
  - intros H. apply Qnot_le_lt. intros Hle.
    apply Qle_bool_iff in Hle. congruence.
  - intros H. destruct (Qle_bool y x) eqn:E; [|reflexivity].
    apply Qle_bool_iff in E. exfalso. exact (Qlt_not_le _ _ H E).
Qed.

Lemma Qlt_bool_false_iff (x y : Q) : Qlt_bool x y = false <-> y <= x.
Proof.
  unfold Qlt_bool. rewrite negb_false_iff. apply Qle_bool_iff.
Qed.

Lemma Qeq_bool_false_iff (x y : Q) : Qeq_bool x y = false <-> ~ x == y.
Proof.
  split.
  - apply Qeq_bool_neq.
  - intros H. destruct (Qeq_bool x y) eqn:E; [|reflexivity].
    apply Qeq_bool_eq in E. contradiction.
Qed.


Lemma py_div_zero (x y : Q) : y == 0 -> py_div x y = Raise ZeroDivisionError.
Proof.
  intros H. unfold py_div. now rewrite (Qeq_eq_bool _ _ H).
Qed.

(** ** Position.update *)

(** On the position's own asset [update] always succeeds; a transaction
    on another asset raises. *)
Lemma update_ok (p : Position) (t : Transaction.Transaction) :
  asset_eqb (asset p) (Transaction.asset t) = true ->
  exists p', update p t = Ok p'.
Proof.
  intros H. unfold update. rewrite H. simpl. eexists. reflexivity.
Qed.

Lemma update_wrong_asset (p : Position) (t : Transaction.Transaction) :
  asset_eqb (asset p) (Transaction.asset t) = false ->
  exists msg, update p t = Raise (PyException msg).
Proof.
  intros H. unfold update. rewrite H. simpl. eexists. reflexivity.
Qed.

(** C1, as amended.  For a position [p] and a transaction [t] on the same
    asset, [update] succeeds and, with total = p.amount + t.amount:
    a zero total resets the cost basis to 0; a nonzero total with opposite
    directions and |t.amount| > |p.amount| sets it to t.price; a nonzero
    total with opposite directions and |t.amount| <= |p.amount| (a partial
    close) leaves it unchanged; a nonzero total with equal directions
    gives the size-weighted average.  From a flat position, buying 10 at
    100 and then selling 15 at 120 leaves cost_basis 120 and amount -5. *)
Theorem update_cost_basis_cases :
  (forall (p : Position) (t : Transaction.Transaction),
      asset_eqb (asset p) (Transaction.asset t) = true ->
      exists p', update p t = Ok p' /\
        let total := amount p + Transaction.amount t in
        let flips :=
          ~ copysign1 (amount p) == copysign1 (Transaction.amount t) in
        (total == 0 -> cost_basis p' = 0) /\
        (~ total == 0 -> flips ->
         Qabs (amount p) < Qabs (Transaction.amount t) ->
         cost_basis p' = Transaction.price t) /\
        (~ total == 0 -> flips ->
         Qabs (Transaction.amount t) <= Qabs (amount p) ->
         cost_basis p' = cost_basis p) /\
        (~ total == 0 -> ~ flips ->
         cost_basis p' ==
           (cost_basis p * amount p
            + Transaction.price t * Transaction.amount t)
           / (amount p + Transaction.amount t)))
  /\
  (exists p1 p2,
      update flat_position buy_10_at_100 = Ok p1 /\
      update p1 sell_15_at_120 = Ok p2 /\
      cost_basis p2 == 120 /\ amount p2 == -(5)).
Proof.
  split.
  - intros p t Hasset. unfold update. rewrite Hasset. simpl.
    eexists. split; [reflexivity|].
    destruct (Qeq_bool (amount p + Transaction.amount t) 0) eqn:Etot.
    + apply Qeq_bool_eq in Etot.
      repeat split; intros; try contradiction; reflexivity.
    + apply Qeq_bool_false_iff in Etot.
      destruct (Qeq_bool (copysign1 (amount p))
                         (copysign1 (Transaction.amount t))) eqn:Edir; simpl.
      * apply Qeq_bool_eq in Edir.
        repeat split; intros; try contradiction.
        destruct (is_newer _ _); simpl;
          (apply Qdiv_comp; [|reflexivity]; ring).
      * apply Qeq_bool_false_iff in Edir.
        destruct (Qlt_bool (Qabs (amount p)) (Qabs (Transaction.amount t)))
          eqn:Emag.
        -- apply Qlt_bool_iff in Emag.
           repeat split; intros; try contradiction.
           ++ destruct (is_newer _ _); reflexivity.
           ++ exfalso. eapply Qlt_not_le; eauto.
        -- apply Qlt_bool_false_iff in Emag.
           repeat split; intros; try contradiction.
           ++ exfalso. eapply Qlt_not_le; eauto.
           ++ destruct (is_newer _ _); reflexivity.
  - do 2 eexists. split; [reflexivity|]. split; [reflexivity|].
    split; reflexivity.
Qed.

(** Witness of C1: a partial close, 10 held at 100 and 5 sold at 120. *)
Lemma update_cost_basis_cases_witness :
  exists p',
    update long_10_at_100 sell_5_at_120 = Ok p' /\ cost_basis p' = 100.
Proof.
  destruct (proj1 update_cost_basis_cases long_10_at_100 sell_5_at_120
              eq_refl) as (p' & Hup & _ & _ & Hkeep & _).
  exists p'. split; [exact Hup|].
  apply Hkeep.
  - intros H. vm_compute in H. discriminate.
  - intros H. vm_compute in H. discriminate.
  - intros H. vm_compute in H. discriminate.
Defined.

(** Counterexample to C1 as stated: with 10 held at cost 100, selling 5 at
    120 neither zeroes the total nor outweighs the position, yet the cost
    basis is not the size-weighted average (which would be 80): it stays
    100. *)
Lemma update_partial_close_not_weighted_average :
  let p := long_10_at_100 in
  let t := sell_5_at_120 in
  asset_eqb (asset p) (Transaction.asset t) = true /\
  ~ amount p + Transaction.amount t == 0 /\
  ~ Qabs (amount p) < Qabs (Transaction.amount t) /\
  exists p', update p t = Ok p' /\
    cost_basis p' == 100 /\
    ~ cost_basis p' ==
        (cost_basis p * amount p
         + Transaction.price t * Transaction.amount t)
        / (amount p + Transaction.amount t).
Proof.
  simpl. split; [reflexivity|].
  split; [intros H; vm_compute in H; discriminate|].
  split; [intros H; vm_compute in H; discriminate|].
  eexists. split; [reflexivity|].
  split; [reflexivity|].
  intros H. vm_compute in H. discriminate.
Qed.

(** C9.  A transaction on the same asset that brings the total to zero
    leaves last_sale_price and last_sale_date as they were, whatever the
    transaction's timestamp, and resets the cost basis to 0. *)
Theorem update_closing_keeps_last_sale :
  forall (p : Position) (t : Transaction.Transaction),
    asset_eqb (asset p) (Transaction.asset t) = true ->
    amount p + Transaction.amount t == 0 ->
    exists p', update p t = Ok p' /\
      last_sale_price p' = last_sale_price p /\
      last_sale_date p' = last_sale_date p /\
      cost_basis p' = 0.
Proof.
  intros p t Hasset Hzero. unfold update. rewrite Hasset. simpl.
  rewrite (Qeq_eq_bool _ _ Hzero).
  eexists. split; [reflexivity|]. simpl. auto.
Qed.

(** Witness of C9: the closing sale is stamped 5, later than the position's
    last sale date 1, which is kept. *)
Lemma update_closing_keeps_last_sale_witness :
  (1 < Transaction.dt sell_10_at_130_with_fee)%Z /\
  exists p', update long_10_at_100 sell_10_at_130_with_fee = Ok p' /\
    last_sale_price p' = 100 /\
    last_sale_date p' = Some 1%Z /\
    cost_basis p' = 0.
Proof.
  split; [reflexivity|].
  apply (update_closing_keeps_last_sale long_10_at_100 sell_10_at_130_with_fee).
  - reflexivity.
  - reflexivity.
Defined.

(** C10.  When the transaction carries a commission and its fee currency
    is the asset's base currency, the amount after [update] is
    (p.amount + t.amount) - t.commission; this also holds when the total is
    zero, where the position ends at -t.commission with cost basis 0. *)
Theorem update_commission_deducted :
  forall (p : Position) (t : Transaction.Transaction) (c : Q),
    asset_eqb (asset p) (Transaction.asset t) = true ->
    Transaction.commission t = Some c ->
    Transaction.fee_currency t = Some (base_currency (asset p)) ->
    exists p', update p t = Ok p' /\
      amount p' = amount p + Transaction.amount t - c /\
      (amount p + Transaction.amount t == 0 ->
       amount p' == - c /\ cost_basis p' = 0).
Proof.
  intros p t c Hasset Hc Hcur. unfold update. rewrite Hasset. simpl.
  unfold commission_applies. rewrite Hc, Hcur, String.eqb_refl.
  eexists. split; [reflexivity|]. split.
  - reflexivity.
  - intros Hzero. rewrite (Qeq_eq_bool _ _ Hzero). simpl. split.
    + rewrite Hzero. ring.
    + reflexivity.
Qed.

(** Witness of C10: closing 10 units with a commission of 0.01 charged in
    the base currency leaves -0.01 units. *)
Lemma update_commission_deducted_witness :
  exists p', update long_10_at_100 sell_10_at_130_with_fee = Ok p' /\
    amount p' == - (1 # 100) /\ cost_basis p' = 0.
Proof.
  destruct (update_commission_deducted long_10_at_100 sell_10_at_130_with_fee
              (1 # 100) eq_refl eq_refl eq_refl) as (p' & Hup & _ & Hclose).
  exists p'. split; [exact Hup|].
  apply Hclose. reflexivity.
Defined.

(** ** Position.handle_split *)



(** A zero ratio makes the division raise. *)
Lemma handle_split_zero_ratio (p : Position) (a : Asset) :
  asset_eqb (asset p) a = true ->
  handle_split p a 0 = Raise ZeroDivisionError.
Proof.
  intros Hasset. unfold handle_split. rewrite Hasset. reflexivity.
Qed.

(** ** _shift_dates *)

Section ShiftDates.

Import CryptoPricingLoader.
Local Open Scope Z_scope.

Lemma strictly_increasing_tail (d : Z) (ds : list Z) :
  strictly_increasing (d :: ds) = true -> strictly_increasing ds = true.
Proof.
  destruct ds as [|d' ds]; [reflexivity|].
  cbn [strictly_increasing]. intros H.
  apply andb_true_iff in H. apply H.
Qed.

(** The first session is strictly before every later one. *)
Lemma strictly_increasing_head_lt (ds : list Z) :
  forall d x, strictly_increasing (d :: ds) = true -> In x ds -> d < x.
Proof.
  induction ds as [|d' ds IH]; intros d x Hs Hin; [destruct Hin|].
  cbn [strictly_increasing] in Hs. apply andb_true_iff in Hs.
  destruct Hs as [Hlt Hs]. apply Z.ltb_lt in Hlt.
  destruct Hin as [<-|Hin]; [exact Hlt|].
  specialize (IH d' x Hs Hin). lia.
Qed.

(** Every session is at or before a session at a later position. *)
Lemma strictly_increasing_nth_le (dates : list Z) :
  strictly_increasing dates = true ->
  forall i j x y,
    nth_error dates i = Some x -> nth_error dates j = Some y ->
    (i <= j)%nat -> x <= y.
Proof.
  induction dates as [|d ds IH]; intros Hs i j x y Hi Hj Hij.
  - destruct i; discriminate.
  - destruct i as [|i], j as [|j]; simpl in Hi, Hj.
    + injection Hi as <-. injection Hj as <-. lia.
    + injection Hi as <-. apply nth_error_In in Hj.
      pose proof (strictly_increasing_head_lt _ _ _ Hs Hj). lia.
    + lia.
    + apply (IH (strictly_increasing_tail _ _ Hs) i j); auto. lia.
Qed.

Lemma get_loc_not_In (dates : list Z) (x : Z) :
  ~ In x dates -> get_loc dates x = None.
Proof.
  induction dates as [|d ds IH]; intros Hnin; [reflexivity|].
  simpl. destruct (Z.eqb_spec d x) as [->|Hne].
  - exfalso. apply Hnin. now left.
  - rewrite IH; [reflexivity|]. intros Hin. apply Hnin. now right.
Qed.

(** On an ordered calendar [get_loc] is the inverse of indexing. *)
Lemma get_loc_nth_error (dates : list Z) :
  strictly_increasing dates = true ->
  forall i x, nth_error dates i = Some x -> get_loc dates x = Some i.
Proof.
  induction dates as [|d ds IH]; intros Hs i x Hi.
  - destruct i; discriminate.
  - simpl. destruct i as [|i]; simpl in Hi.
    + injection Hi as ->. now rewrite Z.eqb_refl.
    + destruct (Z.eqb_spec d x) as [->|Hne].
      * apply nth_error_In in Hi.
        pose proof (strictly_increasing_head_lt _ _ _ Hs Hi). lia.
      * now rewrite (IH (strictly_increasing_tail _ _ Hs) i x Hi).
Qed.

Lemma getitem_nth_error (dates : list Z) (k : Z) (i : nat) (d : Z) :
  0 <= k -> Z.to_nat k = i -> nth_error dates i = Some d ->
  getitem dates k = Ok d.
Proof.
  intros Hk Hi Hd. unfold getitem.
  assert (Hlen : (i < length dates)%nat)
    by (apply nth_error_Some; congruence).
  destruct (Z.ltb_spec k 0); [lia|].
  destruct (Z.ltb_spec k 0); [lia|].
  destruct (Z.leb_spec (Z.of_nat (length dates)) k); [lia|].
  simpl. now rewrite Hi, Hd.
Qed.

Lemma getitem_last (dates : list Z) (n : nat) (dn : Z) :
  length dates = S n -> nth_error dates n = Some dn ->
  getitem dates (-1) = Ok dn.
Proof.
  intros Hlen Hn. unfold getitem. rewrite Hlen.
  change (-1 <? 0) with true. cbv iota.
  replace (Z.of_nat (S n) + -1) with (Z.of_nat n) by lia.
  destruct (Z.ltb_spec (Z.of_nat n) 0); [lia|].
  destruct (Z.leb_spec (Z.of_nat (S n)) (Z.of_nat n)); [lia|].
  simpl. now rewrite Nat2Z.id, Hn.
Qed.

Variable dates : list Z.
Variable n : nat.
Variables d0 dn : Z.
Hypothesis Hordered : strictly_increasing dates = true.
Hypothesis Hlen : length dates = S n.
Hypothesis Hfirst : nth_error dates 0 = Some d0.
Hypothesis Hlast : nth_error dates n = Some dn.

Lemma before_first_not_session (x : Z) : x < d0 -> ~ In x dates.
Proof.
  intros Hx Hin. apply In_nth_error in Hin. destruct Hin as [i Hi].
  pose proof (strictly_increasing_nth_le dates Hordered 0%nat i d0 x
                Hfirst Hi).
  lia.
Qed.

Lemma after_last_not_session (x : Z) : dn < x -> ~ In x dates.
Proof.
  intros Hx Hin. apply In_nth_error in Hin. destruct Hin as [i Hi].
  assert (Hi' : (i < length dates)%nat)
    by (apply nth_error_Some; congruence).
  pose proof (strictly_increasing_nth_le dates Hordered i n x dn
                Hi Hlast).
  lia.
Qed.

(** The outcome of the look-up of the start date and of the shift check:
    the three ways in which [_shift_dates] stops before looking at the
    end date. *)
Lemma shift_dates_start_before_first (start_date end_date shift : Z) :
  start_date < d0 ->
  _shift_dates dates start_date end_date shift = Raise NoFurtherDataError.
Proof.
  intros Hx. unfold _shift_dates.
  rewrite (get_loc_not_In _ _ (before_first_not_session _ Hx)).
  rewrite (getitem_nth_error dates 0 0%nat d0); auto; try lia.
  simpl. destruct (Z.ltb_spec start_date d0); [reflexivity|lia].
Qed.

Lemma shift_dates_start_not_session (start_date end_date shift : Z) :
  d0 <= start_date -> ~ In start_date dates ->
  _shift_dates dates start_date end_date shift = Raise ValueError.
Proof.
  intros Hx Hnin. unfold _shift_dates.
  rewrite (get_loc_not_In _ _ Hnin).
  rewrite (getitem_nth_error dates 0 0%nat d0); auto; try lia.
  simpl. destruct (Z.ltb_spec start_date d0); [lia|reflexivity].
Qed.

Lemma shift_dates_shift_too_far (i : nat) (start_date end_date shift : Z) :
  nth_error dates i = Some start_date -> Z.of_nat i < shift ->
  _shift_dates dates start_date end_date shift = Raise NoFurtherDataError.
Proof.
  intros Hi Hshift. unfold _shift_dates.
  rewrite (get_loc_nth_error dates Hordered _ _ Hi). simpl.
  destruct (Z.ltb_spec (Z.of_nat i) shift); [reflexivity|lia].
Qed.

(** Once the start date is a session far enough from the calendar's
    start, the end date decides. *)
Lemma shift_dates_after_start (i : nat) (start_date end_date shift : Z) :
  nth_error dates i = Some start_date -> shift <= Z.of_nat i ->
  _shift_dates dates start_date end_date shift =
    (end_ <-
       match get_loc dates end_date with
       | Some j => Ok (Z.of_nat j)
       | None =>
           if dn <? end_date then Raise NoFurtherDataError
           else Raise ValueError
       end ;;
     a <- getitem dates (Z.of_nat i - shift) ;;
     b <- getitem dates (end_ - shift) ;;
     Ok (a, b)).
Proof.
  intros Hi Hshift. unfold _shift_dates.
  rewrite (get_loc_nth_error dates Hordered _ _ Hi). simpl.
  destruct (Z.ltb_spec (Z.of_nat i) shift); [lia|].
  rewrite (getitem_last dates n dn Hlen Hlast). reflexivity.
Qed.

End ShiftDates.

Arguments shift_dates_after_start {dates n dn} _ _ _ i start_date end_date {shift} _ _.
Arguments after_last_not_session {dates n dn} _ _ _ {x} _.

(** C2, as amended.  On an ordered calendar D0..Dn and for shift >= 0:
    if start = Di and end = Dj are sessions with i >= shift and j >= shift,
    [_shift_dates] returns (D(i-shift), D(j-shift));
    it raises NoFurtherDataError when start precedes D0, when start = Di
    with i < shift, and, provided start = Di with i >= shift, when end is
    after Dn; it raises ValueError when start lies within the calendar's
    bounds without being a session, and, provided start = Di with
    i >= shift, when end lies within the bounds without being a session.
    The checks on start are made, and fail, before end is looked at. *)
Theorem shift_dates_spec :
  forall (dates : list Z) (n : nat) (d0 dn shift : Z),
    CryptoPricingLoader.strictly_increasing dates = true ->
    length dates = S n ->
    nth_error dates 0 = Some d0 ->
    nth_error dates n = Some dn ->
    (0 <= shift)%Z ->
    forall start_date end_date : Z,
      (forall i j : nat,
          nth_error dates i = Some start_date ->
          nth_error dates j = Some end_date ->
          (shift <= Z.of_nat i)%Z -> (shift <= Z.of_nat j)%Z ->
          exists a b,
            nth_error dates (i - Z.to_nat shift) = Some a /\
            nth_error dates (j - Z.to_nat shift) = Some b /\
            CryptoPricingLoader._shift_dates dates start_date end_date shift
              = Ok (a, b)) /\
      ((start_date < d0)%Z ->
       CryptoPricingLoader._shift_dates dates start_date end_date shift
         = Raise NoFurtherDataError) /\
      (forall i : nat,
          nth_error dates i = Some start_date -> (Z.of_nat i < shift)%Z ->
          CryptoPricingLoader._shift_dates dates start_date end_date shift
            = Raise NoFurtherDataError) /\
      (forall i : nat,
          nth_error dates i = Some start_date -> (shift <= Z.of_nat i)%Z ->
          (dn < end_date)%Z ->
          CryptoPricingLoader._shift_dates dates start_date end_date shift
            = Raise NoFurtherDataError) /\
      ((d0 <= start_date <= dn)%Z -> ~ In start_date dates ->
       CryptoPricingLoader._shift_dates dates start_date end_date shift
         = Raise ValueError) /\
      (forall i : nat,
          nth_error dates i = Some start_date -> (shift <= Z.of_nat i)%Z ->
          (d0 <= end_date <= dn)%Z -> ~ In end_date dates ->
          CryptoPricingLoader._shift_dates dates start_date end_date shift
            = Raise ValueError).
Proof.
  intros dates n d0 dn shift Hordered Hlen Hfirst Hlast Hshift
    start_date end_date.
  repeat split.
  - intros i j Hi Hj Hsi Hsj.
    assert (Hilen : (i < length dates)%nat)
      by (apply nth_error_Some; congruence).
    assert (Hjlen : (j < length dates)%nat)
      by (apply nth_error_Some; congruence).
    destruct (nth_error dates (i - Z.to_nat shift)) as [a|] eqn:Ea;
      [|apply nth_error_None in Ea; lia].
    destruct (nth_error dates (j - Z.to_nat shift)) as [b|] eqn:Eb;
      [|apply nth_error_None in Eb; lia].
    exists a, b. repeat split.
    rewrite (shift_dates_after_start Hordered Hlen Hlast
               i start_date end_date Hi Hsi).
    rewrite (get_loc_nth_error dates Hordered _ _ Hj). simpl.
    rewrite (getitem_nth_error dates (Z.of_nat i - shift)
               (i - Z.to_nat shift) a); [|lia|lia|exact Ea].
    simpl.
    rewrite (getitem_nth_error dates (Z.of_nat j - shift)
               (j - Z.to_nat shift) b); [|lia|lia|exact Eb].
    reflexivity.
  - intros Hx.
    eapply shift_dates_start_before_first; eauto.
  - intros i Hi Hsi.
    eapply shift_dates_shift_too_far; eauto.
  - intros i Hi Hsi Hend.
    rewrite (shift_dates_after_start Hordered Hlen Hlast
               i start_date end_date Hi Hsi).
    rewrite (get_loc_not_In _ _
               (after_last_not_session Hordered Hlen Hlast Hend)).
    destruct (Z.ltb_spec dn end_date); [reflexivity|lia].
  - intros [Hlo _] Hnin.
    eapply shift_dates_start_not_session; eauto.
  - intros i Hi Hsi [_ Hhi] Hnin.
    rewrite (shift_dates_after_start Hordered Hlen Hlast
               i start_date end_date Hi Hsi).
    rewrite (get_loc_not_In _ _ Hnin).
    destruct (Z.ltb_spec dn end_date); [lia|reflexivity].
Qed.

(** Witness of C2: on the calendar 10, 20, 30, 40 a query from 20 to 40 is
    shifted back one session to (10, 30). *)
Lemma shift_dates_spec_witness :
  CryptoPricingLoader._shift_dates sample_calendar 20 40 1 = Ok (10, 30)%Z.
Proof.
  destruct (shift_dates_spec sample_calendar 3 10 40 1
              eq_refl eq_refl eq_refl eq_refl ltac:(lia) 20%Z 40%Z)
    as (Hret & _).
  destruct (Hret 1%nat 3%nat eq_refl eq_refl ltac:(lia) ltac:(lia))
    as (a & b & Ha & Hb & Hsd).
  simpl in Ha, Hb. injection Ha as <-. injection Hb as <-.
  exact Hsd.
Defined.

(** Counterexample to C2 as stated, on the calendar 10, 20, 30, 40 with
    shift 1.  An end date after the last session does not always give
    NoFurtherDataError: with a start date inside the bounds that is not a
    session the call fails with ValueError first.  An end date inside the
    bounds that is not a session does not always give the look-up error:
    with a start date before the first session the call fails with
    NoFurtherDataError first. *)
Lemma shift_dates_error_precedence :
  CryptoPricingLoader.strictly_increasing sample_calendar = true /\
  ((40 < 50)%Z /\
   CryptoPricingLoader._shift_dates sample_calendar 15 50 1
     = Raise ValueError /\
   CryptoPricingLoader._shift_dates sample_calendar 15 50 1
     <> Raise NoFurtherDataError) /\
  ((10 <= 15 <= 40)%Z /\ ~ In 15%Z sample_calendar /\
   CryptoPricingLoader._shift_dates sample_calendar 5 15 1
     = Raise NoFurtherDataError /\
   CryptoPricingLoader._shift_dates sample_calendar 5 15 1
     <> Raise ValueError).
Proof.
  split; [reflexivity|]. split.
  - split; [lia|]. split; [reflexivity|]. vm_compute. discriminate.
  - split; [lia|]. split.
    + simpl. intros H. repeat (destruct H as [H|H]; [discriminate|]).
      exact H.
    + split; [reflexivity|]. vm_compute. discriminate.
Qed.

(** ** Classifier operators *)







(** The kind of the scalar disagrees with the dtype:
    [isinstance(other, Number) != (self.dtype == int64_dtype)]. *)
Lemma kind_check (c : Classifier.Classifier) (other : scalar) :
  negb (Bool.eqb (isinstance_Number other)
                 (dtype_eqb (Classifier.dtype c) int64_dtype)) = true
  <-> isinstance_Number other
      <> dtype_eqb (Classifier.dtype c) int64_dtype.
Proof.
  rewrite negb_true_iff.
  destruct (isinstance_Number other), (dtype_eqb _ _); simpl;
    split; congruence.
Qed.

(** C4, as amended.  [c.__ne__(other)] raises the comparison error exactly
    when the kind of [other] (number or not) disagrees with the dtype of
    [c], which is the check [c.eq(other)] makes once [other] has passed its
    missing-value guard.  When the kinds agree, the filter it builds is
    true at exactly the cells whose value differs from the comparand and
    from [c.missing_value], where the comparand is [other] for a string
    and [int(other)] for a number. *)
Theorem ne_spec :
  forall (c : Classifier.Classifier) (other : scalar),
    let mismatch :=
      isinstance_Number other
      <> dtype_eqb (Classifier.dtype c) int64_dtype in
    (Classifier.__ne__ c other = Raise InvalidClassifierComparison
     <-> mismatch) /\
    (py_eq other (Classifier.missing_value c) = false ->
     (Classifier.eq c other = Raise InvalidClassifierComparison
      <-> mismatch)) /\
    (~ mismatch ->
     exists f, Classifier.__ne__ c other = Ok f /\
       forall x : scalar,
         Classifier.filter_at f x = true <->
         py_eq x (ne_comparand other) = false /\
         py_eq x (Classifier.missing_value c) = false).
Proof.
  intros c other mismatch. subst mismatch.
  pose proof (kind_check c other) as Hk.
  unfold Classifier.__ne__, Classifier.eq.
  destruct (negb (Bool.eqb (isinstance_Number other)
                    (dtype_eqb (Classifier.dtype c) int64_dtype))) eqn:E.
  - assert (Hmis : isinstance_Number other
                   <> dtype_eqb (Classifier.dtype c) int64_dtype)
      by (now apply Hk).
    split; [tauto|]. split.
    + intros ->. tauto.
    + intros Hno. contradiction.
  - assert (Hagree : ~ isinstance_Number other
                       <> dtype_eqb (Classifier.dtype c) int64_dtype).
    { intros H. apply Hk in H. discriminate. }
    split; [|split].
    + split; [|tauto]. destruct other; discriminate.
    + intros ->. split; [|tauto]. destruct other; discriminate.
    + intros _. destruct other as [n| s |]; eexists; (split; [reflexivity|]);
        intros x; simpl; rewrite andb_true_iff, !negb_true_iff; tauto.
Qed.

(** Witness of C4: a string classifier compared with "a". *)
Lemma ne_spec_witness :
  exists f, Classifier.__ne__ string_classifier (SStr "a") = Ok f /\
    Classifier.filter_at f (SStr "b") = true /\
    Classifier.filter_at f (SStr "a") = false /\
    Classifier.filter_at f (SStr "") = false.
Proof.
  destruct (ne_spec string_classifier (SStr "a")) as (_ & _ & Hsem).
  destruct Hsem as (f & Hf & Hat).
  - intros H. apply H. reflexivity.
  - exists f. split; [exact Hf|].
    split; [apply Hat; split; reflexivity|].
    split.
    + destruct (Classifier.filter_at f (SStr "a")) eqn:E; [|reflexivity].
      apply Hat in E. destruct E as [E _]. discriminate.
    + destruct (Classifier.filter_at f (SStr "")) eqn:E; [|reflexivity].
      apply Hat in E. destruct E as [_ E]. discriminate.
Defined.

(** Counterexample to C4 as stated: an integer classifier with missing
    value -1 compared with the number 1.5.  The kinds agree, and a cell
    holding 1 differs from 1.5 and from -1, yet the filter is false there:
    the expression compares with int(1.5) = 1. *)
Lemma ne_truncates_number :
  let c := int_classifier in
  let other := SNum (NFloat (3 # 2)) in
  let x := SNum (NInt 1) in
  isinstance_Number other = dtype_eqb (Classifier.dtype c) int64_dtype /\
  py_eq x other = false /\
  py_eq x (Classifier.missing_value c) = false /\
  exists f, Classifier.__ne__ c other = Ok f /\
    Classifier.filter_at f x = false.
Proof.
  simpl. repeat split. eexists. split; reflexivity.
Qed.

(** ** The benchmark and treasury cache *)

(** C8.  For a cache file that exists and reads as a non-empty table, with
    first entry [first] and last entry [last]: [_load_cached_data] returns
    the table when first <= first_date and last >= last_date; when the
    table does not cover the dates it still returns the table if the file
    was modified at most one hour before [now], and returns [None]
    otherwise. *)
Theorem load_cached_data_freshness :
  forall (fs : Loader.FileSystem) (filename resource_name : string)
         (first_date last_date now : Z)
         (file : Loader.File) (data : Loader.DataFrame)
         (first : Z) (rest : list Z),
    fs (Loader.get_data_filepath filename) = Some file ->
    Loader.from_csv file = Ok data ->
    Loader.index data = first :: rest ->
    let last := List.last (Loader.index data) first in
    let covers := (first <= first_date)%Z /\ (last >= last_date)%Z in
    let r := snd (Loader._load_cached_data fs filename first_date last_date
                    now resource_name) in
    (covers -> r = Ok (Some data)) /\
    (~ covers -> (now - Loader.mtime file <= Loader.ONE_HOUR)%Z ->
     r = Ok (Some data)) /\
    (~ covers -> (now - Loader.mtime file > Loader.ONE_HOUR)%Z ->
     r = Ok None).
Proof.
  intros fs filename resource_name first_date last_date now file data
    first rest Hfile Hread Hidx last covers r.
  subst r. unfold Loader._load_cached_data. rewrite Hfile, Hread.
  unfold Loader.empty, Loader.has_data_for_dates. rewrite Hidx.
  rewrite <- Hidx. fold last.
  destruct (Z.leb_spec first first_date) as [Hf|Hf];
    destruct (Z.geb_spec last last_date) as [Hl|Hl]; simpl;
    unfold Loader.last_modified_time;
    destruct (Z.leb_spec (now - Loader.mtime file) Loader.ONE_HOUR)
      as [Hh|Hh]; simpl;
    subst covers; repeat split; intros; try reflexivity; try lia;
    try (exfalso; tauto).
Qed.

(** Witness of C8: a cache that ends at 300 when 400 is asked for, written
    ten minutes before [now], is returned as it is. *)
Lemma load_cached_data_freshness_witness :
  let fs := Loader.store Loader.no_files
              (Loader.get_data_filepath "SPY_benchmark.csv")
              (Loader.mkFile (Ok january) 0) in
  snd (Loader._load_cached_data fs "SPY_benchmark.csv" 100 400
         600000000000 "benchmark") = Ok (Some january).
Proof.
  intros fs.
  destruct (load_cached_data_freshness fs "SPY_benchmark.csv" "benchmark"
              100 400 600000000000 (Loader.mkFile (Ok january) 0) january
              100 [200; 300]%Z eq_refl eq_refl eq_refl) as (_ & Hstale & _).
  apply Hstale.
  - simpl. lia.
  - simpl. unfold Loader.ONE_HOUR. lia.
Defined.

(** C7, what the code does.  After a cache miss, when the download fails
    with a file or network error [e]: [ensure_benchmark_data] logs the
    failure and raises [e] again; [ensure_treasury_data] logs the failure
    and swallows [e], but the data it then checks is still [None], so it
    raises AttributeError instead of returning.  Only when the download
    succeeded and writing the cache file failed does it return the
    downloaded table, with a warning when the table does not cover the
    dates. *)
Theorem ensure_data_download_failure :
  forall (remote : Loader.Remote) (fs : Loader.FileSystem) (symbol : string)
         (first_date last_date now trading_day : Z) (e : exn),
    Loader.is_file_or_network_error e = true ->
    (forall l,
        Loader._load_cached_data fs (Loader.get_benchmark_filename symbol)
          first_date last_date now "benchmark" = (l, Ok None) ->
        Loader.get_benchmark_returns remote symbol
          (first_date - trading_day)%Z last_date = Raise e ->
        let out := Loader.ensure_benchmark_data remote fs symbol first_date
                     last_date now trading_day in
        Loader.returned out = Raise e /\
        In (Loader.ERROR, "Failed to cache the new benchmark returns"%string)
           (Loader.log out)) /\
    (forall l,
        let first_date' :=
          Z.max first_date
            (Loader.earliest_possible_date remote
               (fst (Loader.INDEX_MAPPING symbol))) in
        Loader._load_cached_data fs (snd (Loader.INDEX_MAPPING symbol))
          first_date' last_date now "treasury" = (l, Ok None) ->
        let out := Loader.ensure_treasury_data remote fs symbol first_date
                     last_date now in
        (Loader.get_treasury_data remote (fst (Loader.INDEX_MAPPING symbol))
           first_date' last_date = Raise e ->
         Loader.returned out = Raise AttributeError /\
         In (Loader.ERROR, "failed to cache treasury data"%string)
            (Loader.log out)) /\
        (forall data covered,
            Loader.get_treasury_data remote
              (fst (Loader.INDEX_MAPPING symbol)) first_date' last_date
              = Ok data ->
            Loader.to_csv_error remote
              (Loader.get_data_filepath (snd (Loader.INDEX_MAPPING symbol)))
              = Some e ->
            Loader.has_data_for_dates (Some data) first_date' last_date
              = Ok covered ->
            Loader.returned out = Ok (Some data) /\
            In (Loader.ERROR, "failed to cache treasury data"%string)
               (Loader.log out) /\
            (covered = false ->
             In (Loader.WARNING,
                 "Still don't have expected data after redownload!"%string)
                (Loader.log out)))).
Proof.
  intros remote fs symbol first_date last_date now trading_day e He.
  split.
  - intros l Hmiss Hdown out. subst out.
    unfold Loader.ensure_benchmark_data. rewrite Hmiss, Hdown, He.
    simpl. split; [reflexivity|].
    apply in_or_app. right. now left.
  - intros l first_date' Hmiss out. subst out.
    unfold Loader.ensure_treasury_data.
    destruct (Loader.INDEX_MAPPING symbol) as [loader_module filename].
    cbn [fst snd] in *. fold first_date'. rewrite Hmiss. split.
    + intros Hdown. rewrite Hdown, He. simpl. split; [reflexivity|].
      apply in_or_app. right. now left.
    + intros data covered Hdown Hwrite Hcov.
      rewrite Hdown. unfold Loader.to_csv. rewrite Hwrite, He.
      unfold Loader.check_and_return. rewrite Hcov. simpl.
      split; [reflexivity|]. split.
      * destruct covered; [|apply in_or_app; left];
          apply in_or_app; right; now left.
      * intros ->. apply in_or_app. right. now left.
Qed.

(** Witness of C7: nothing cached and a source that answers every download
    with HTTPError.  The benchmark call raises HTTPError; the treasury call
    raises AttributeError. *)
Lemma ensure_data_download_failure_witness :
  Loader.returned
    (Loader.ensure_benchmark_data remote_down Loader.no_files "SPY"
       100 300 1000 1) = Raise HTTPError /\
  Loader.returned
    (Loader.ensure_treasury_data remote_down Loader.no_files "SPY"
       100 300 1000) = Raise AttributeError.
Proof.
  destruct (ensure_data_download_failure remote_down Loader.no_files "SPY"
              100 300 1000 1 HTTPError eq_refl) as [Hb Ht].
  split.
  - apply (Hb [Loader.cache_miss_record]); reflexivity.
  - apply (Ht [Loader.cache_miss_record]); reflexivity.
Defined.

(** The treasury call does return what it downloaded when only the write
    of the cache file fails. *)
Lemma ensure_treasury_data_write_failure :
  Loader.returned
    (Loader.ensure_treasury_data remote_up_disk_full Loader.no_files "SPY"
       100 300 1000) = Ok (Some january).
Proof. reflexivity. Qed.

(** ** Quantiles *)

Section QuantileRanks.

Import Quantiles.

Lemma before_iff (a b : Q * nat) :
  before a b = true <->
  (fst a < fst b)%Q \/ ((fst a == fst b)%Q /\ (snd a < snd b)%nat).
Proof.
  unfold before.
  rewrite orb_true_iff, andb_true_iff, Qlt_bool_iff, Qeq_bool_iff,
    Nat.ltb_lt.
  reflexivity.
Qed.

Lemma before_irrefl (a : Q * nat) : before a a = false.
Proof.
  destruct (before a a) eqn:E; [|reflexivity].
  apply before_iff in E. destruct E as [E|[_ E]]; [lra|lia].
Qed.

Lemma before_trans (a b c : Q * nat) :
  before a b = true -> before b c = true -> before a c = true.
Proof.
  rewrite !before_iff. intros [H1|[H1 H1']] [H2|[H2 H2']].
  - left. lra.
  - left. lra.
  - left. lra.
  - right. split; [lra|lia].
Qed.

(** Two cells at different positions are ranked one before the other. *)
Lemma before_total (a b : Q * nat) :
  snd a <> snd b -> before a b = true \/ before b a = true.
Proof.
  intros Hne. rewrite !before_iff.
  destruct (Q_dec (fst a) (fst b)) as [[H|H]|H].
  - left. now left.
  - right. now left.
  - destruct (Nat.lt_total (snd a) (snd b)) as [Hlt|[Heq|Hgt]].
    + left. right. split; [exact H|exact Hlt].
    + contradiction.
    + right. right. split; [symmetry; exact H|exact Hgt].
Qed.

(** A predicate that holds on more cells is counted more often. *)
Lemma filter_length_lt {A : Type} (f g : A -> bool) (l : list A) (a : A) :
  (forall x, In x l -> f x = true -> g x = true) ->
  In a l -> f a = false -> g a = true ->
  (length (filter f l) < length (filter g l))%nat.
Proof.
  intros Hsub Hin Hfa Hga.
  assert (Hle : forall l', (forall x, In x l' -> f x = true -> g x = true) ->
                (length (filter f l') <= length (filter g l'))%nat).
  { induction l' as [|x l' IH]; intros Hs; [simpl; lia|].
    simpl. specialize (IH (fun y Hy => Hs y (or_intror Hy))).
    destruct (f x) eqn:Ef.
    - rewrite (Hs x (or_introl eq_refl) Ef). simpl. lia.
    - destruct (g x); simpl; lia. }
  induction l as [|x l IH]; [destruct Hin|].
  simpl. destruct Hin as [->|Hin].
  - rewrite Hfa, Hga. simpl.
    specialize (Hle l (fun y Hy => Hsub y (or_intror Hy))). lia.
  - specialize (IH (fun y Hy => Hsub y (or_intror Hy)) Hin).
    destruct (f x) eqn:Ef.
    + rewrite (Hsub x (or_introl eq_refl) Ef). simpl. lia.
    + destruct (g x); simpl; lia.
Qed.

Lemma rank_lt (cells : list (Q * nat)) (a b : Q * nat) :
  In a cells -> before a b = true -> (rank cells a < rank cells b)%nat.
Proof.
  intros Hin Hab. unfold rank.
  apply (filter_length_lt _ _ cells a).
  - intros x _ Hxa. exact (before_trans x a b Hxa Hab).
  - exact Hin.
  - apply before_irrefl.
  - exact Hab.
Qed.

Lemma rank_bound (cells : list (Q * nat)) (a : Q * nat) :
  In a cells -> (rank cells a < length cells)%nat.
Proof.
  intros Hin. unfold rank.
  replace (length cells) with (length (filter (fun _ => true) cells)).
  - apply (filter_length_lt _ _ cells a); auto using before_irrefl.
  - clear. induction cells; simpl; auto.
Qed.

Lemma valid_from_position (row : list (option Q)) :
  forall i c, In c (valid_from i row) -> (i <= snd c)%nat.
Proof.
  induction row as [|[v|] r IH]; intros i c Hin; simpl in Hin.
  - destruct Hin.
  - destruct Hin as [<-|Hin]; [simpl; lia|].
    specialize (IH (S i) c Hin). lia.
  - specialize (IH (S i) c Hin). lia.
Qed.

Lemma valid_from_NoDup (row : list (option Q)) :
  forall i, NoDup (map snd (valid_from i row)).
Proof.
  induction row as [|[v|] r IH]; intros i; simpl.
  - constructor.
  - constructor; [|apply IH].
    intros Hin. apply in_map_iff in Hin. destruct Hin as (c & Hc & Hin).
    apply valid_from_position in Hin. simpl in Hc. lia.
  - apply IH.
Qed.

(** The ranks of n cells at different positions are 0, ..., n-1 in some
    order. *)
Lemma ranks_permutation (cells : list (Q * nat)) :
  NoDup (map snd cells) ->
  Permutation (map (rank cells) cells) (seq 0 (length cells)).
Proof.
  intros Hnd. apply NoDup_Permutation_bis.
  - assert (Hinj : forall l, NoDup (map snd l) -> incl l cells ->
                     NoDup (map (rank cells) l)).
    { induction l as [|a l IH]; intros Hl Hincl; simpl; [constructor|].
      inversion Hl as [|? ? Hnotin Hl']; subst.
      constructor.
      - intros Hin. apply in_map_iff in Hin.
        destruct Hin as (b & Hrank & Hb).
        assert (Hne : snd a <> snd b).
        { intros Heq. apply Hnotin. rewrite Heq. now apply in_map. }
        destruct (before_total a b Hne) as [Hab|Hba].
        + pose proof (rank_lt cells a b (Hincl a (or_introl eq_refl)) Hab).
          lia.
        + pose proof (rank_lt cells b a (Hincl b (or_intror Hb)) Hba).
          lia.
      - apply IH; [exact Hl'|].
        intros x Hx. apply Hincl. now right. }
    apply Hinj; [exact Hnd|apply incl_refl].
  - rewrite length_seq, length_map. lia.
  - intros r Hr. apply in_map_iff in Hr. destruct Hr as (a & <- & Ha).
    apply in_seq. pose proof (rank_bound cells a Ha). lia.
Qed.

End QuantileRanks.

Section QuantileCounts.

Import Quantiles.
Local Open Scope Z_scope.

Lemma cdiv_le (x b r : Z) : 0 < b -> (cdiv x b <= r <-> x <= r * b).
Proof.
  intros Hb. unfold cdiv.
  pose proof (Z.div_mod (x + b - 1) b ltac:(lia)) as Hdm.
  pose proof (Z.mod_pos_bound (x + b - 1) b Hb) as Hmod.
  split; intros H; nia.
Qed.

Lemma div_eq_iff (a n c : Z) : 0 < n -> (a / n = c <-> c * n <= a < (c + 1) * n).
Proof.
  intros Hn.
  pose proof (Z.div_mod a n ltac:(lia)) as Hdm.
  pose proof (Z.mod_pos_bound a n Hn) as Hmod.
  split; intros H; nia.
Qed.

(** The ranks that fall into group [c] form an interval. *)
Lemma bin_of_rank_interval (bins : Z) (n r : nat) (c : Z) :
  0 < bins -> (0 < n)%nat ->
  bin_of_rank bins n r = c <->
  cdiv (c * Z.of_nat n) bins <= Z.of_nat r
  /\ Z.of_nat r < cdiv ((c + 1) * Z.of_nat n) bins.
Proof.
  intros Hb Hn. unfold bin_of_rank.
  rewrite div_eq_iff by lia.
  rewrite (cdiv_le (c * Z.of_nat n) bins (Z.of_nat r) Hb).
  pose proof (cdiv_le ((c + 1) * Z.of_nat n) bins (Z.of_nat r) Hb) as Hhi.
  split; intros [H1 H2]; (split; [exact H1|]); lia.
Qed.

Lemma cdiv_bounds (bins n c : Z) :
  0 < bins -> 0 <= n -> 0 <= c < bins ->
  0 <= cdiv (c * n) bins
  /\ cdiv (c * n) bins <= cdiv ((c + 1) * n) bins
  /\ cdiv ((c + 1) * n) bins <= n.
Proof.
  intros Hb Hn Hc. unfold cdiv.
  pose proof (Z.div_mod (c * n + bins - 1) bins ltac:(lia)) as H1.
  pose proof (Z.mod_pos_bound (c * n + bins - 1) bins Hb) as H1'.
  pose proof (Z.div_mod ((c + 1) * n + bins - 1) bins ltac:(lia)) as H2.
  pose proof (Z.mod_pos_bound ((c + 1) * n + bins - 1) bins Hb) as H2'.
  repeat split; nia.
Qed.

(** The size of a group: the quotient n / bins, or one more. *)
Lemma group_size (bins n c : Z) :
  0 < bins -> 0 <= n -> 0 <= c < bins ->
  n / bins <= cdiv ((c + 1) * n) bins - cdiv (c * n) bins <= n / bins + 1
  /\ (n mod bins = 0 ->
      cdiv ((c + 1) * n) bins - cdiv (c * n) bins = n / bins).
Proof.
  intros Hb Hn Hc. unfold cdiv.
  pose proof (Z.div_mod (c * n + bins - 1) bins ltac:(lia)) as H1.
  pose proof (Z.mod_pos_bound (c * n + bins - 1) bins Hb) as H1'.
  pose proof (Z.div_mod ((c + 1) * n + bins - 1) bins ltac:(lia)) as H2.
  pose proof (Z.mod_pos_bound ((c + 1) * n + bins - 1) bins Hb) as H2'.
  pose proof (Z.div_mod n bins ltac:(lia)) as H3.
  pose proof (Z.mod_pos_bound n bins Hb) as H3'.
  set (A := (c * n + bins - 1) / bins) in *.
  set (B := ((c + 1) * n + bins - 1) / bins) in *.
  set (s := (c * n + bins - 1) mod bins) in *.
  set (t := ((c + 1) * n + bins - 1) mod bins) in *.
  set (q := n / bins) in *.
  set (m := n mod bins) in *.
  assert (Hd : bins * (B - A - q) = m - t + s) by lia.
  assert (Hd01 : B - A - q = 0 \/ B - A - q = 1) by nia.
  repeat split; lia.
Qed.

(** Counting the arguments in 0, ..., n-1 that [f] sends to [c], when
    these are the members of an interval. *)
Lemma count_occ_interval (f : nat -> Z) (c : Z) (lo hi : nat) :
  (lo <= hi)%nat ->
  (forall r, f r = c <-> (lo <= r < hi)%nat) ->
  forall n,
    count_occ Z.eq_dec (map f (seq 0 n)) c = (Nat.min hi n - Nat.min lo n)%nat.
Proof.
  intros Hlh Hf. induction n as [|n IH]; [simpl; lia|].
  rewrite seq_S, map_app, count_occ_app, IH. simpl.
  destruct (Z.eq_dec (f n) c) as [E|E].
  - apply Hf in E. lia.
  - assert (~ (lo <= n < hi)%nat) by (intros H; apply E; now apply Hf).
    lia.
Qed.

End QuantileCounts.

Section QuantileRows.

Import Quantiles.

Lemma astype_int64_inject_Z (k : Z) : astype_int64 (inject_Z k) = k.
Proof.
  unfold astype_int64.
  destruct (Qlt_bool (inject_Z k) 0); [apply Qceiling_Z|apply Qfloor_Z].
Qed.

Lemma astype_fill_missing_None :
  astype_int64 (fill_missing None) = missing_value.
Proof. reflexivity. Qed.

Lemma nth_error_where_row (mask : list bool) (data : list (option Q)) :
  forall j m d,
    nth_error mask j = Some m -> nth_error data j = Some d ->
    nth_error (where_row mask data) j = Some (if m then d else None).
Proof.
  unfold where_row. revert data.
  induction mask as [|m0 mask IH]; intros data j m d Hm Hd.
  - destruct j; discriminate.
  - destruct data as [|d0 data]; [destruct j; discriminate|].
    destruct j as [|j]; simpl in *.
    + injection Hm as <-. injection Hd as <-. reflexivity.
    + now apply IH.
Qed.

Lemma length_where_row (mask : list bool) (data : list (option Q)) :
  length mask = length data -> length (where_row mask data) = length data.
Proof.
  intros H. unfold where_row. rewrite length_map, length_combine. lia.
Qed.

Lemma length_qcut_from (cells : list (Q * nat)) (bins : Z)
    (row : list (option Q)) :
  forall i, length (qcut_from cells bins i row) = length row.
Proof.
  induction row as [|[v|] r IH]; intros i; simpl; auto.
Qed.

Lemma nth_error_qcut_from_None (cells : list (Q * nat)) (bins : Z)
    (row : list (option Q)) :
  forall i j, nth_error row j = Some None ->
    nth_error (qcut_from cells bins i row) j = Some None.
Proof.
  induction row as [|x r IH]; intros i j Hj; [destruct j; discriminate|].
  destruct j as [|j]; simpl in Hj.
  - injection Hj as ->. reflexivity.
  - destruct x; simpl; now apply IH.
Qed.

Lemma nth_error_qcut_from_Some (cells : list (Q * nat)) (bins : Z)
    (row : list (option Q)) :
  forall i j v, nth_error row j = Some (Some v) ->
    In (v, (i + j)%nat) (valid_from i row) /\
    nth_error (qcut_from cells bins i row) j =
      Some (Some (inject_Z (bin_of_rank bins (length cells)
                              (rank cells (v, (i + j)%nat))))).
Proof.
  induction row as [|x r IH]; intros i j v Hj; [destruct j; discriminate|].
  destruct j as [|j]; simpl in Hj.
  - injection Hj as ->. rewrite Nat.add_0_r. simpl. split; [now left|reflexivity].
  - destruct (IH (S i) j v Hj) as [Hin Hnth].
    replace (i + S j)%nat with (S i + j)%nat by lia.
    destruct x; simpl; split; auto.
Qed.

(** A group code is counted in the output row as often as among the
    numbers of the row. *)
Lemma count_occ_qcut_from (cells : list (Q * nat)) (bins : Z) (c : Z)
    (row : list (option Q)) :
  c <> missing_value ->
  forall i,
    count_occ Z.eq_dec
      (map (fun x => astype_int64 (fill_missing x))
           (qcut_from cells bins i row)) c
    = count_occ Z.eq_dec
        (map (fun a => bin_of_rank bins (length cells) (rank cells a))
             (valid_from i row)) c.
Proof.
  intros Hc. induction row as [|[v|] r IH]; intros i.
  - reflexivity.
  - cbn [qcut_from valid_from map fill_missing].
    rewrite astype_int64_inject_Z. cbn [count_occ]. now rewrite IH.
  - cbn [qcut_from valid_from map]. rewrite astype_fill_missing_None.
    rewrite count_occ_cons_neq by congruence. apply IH.
Qed.

Lemma bin_of_rank_range (bins : Z) (n r : nat) :
  (0 < bins)%Z -> (r < n)%nat -> (0 <= bin_of_rank bins n r < bins)%Z.
Proof.
  intros Hb Hr. unfold bin_of_rank. split.
  - apply Z.div_pos; lia.
  - apply Z.div_lt_upper_bound; nia.
Qed.

(** Equal population: among n numbers each of the groups 0, ..., bins-1
    has n / bins members or one more, and exactly n / bins when bins
    divides n. *)
Lemma group_population (bins : Z) (cells : list (Q * nat)) (c : Z) :
  (0 < bins)%Z -> NoDup (map snd cells) -> (0 <= c < bins)%Z ->
  let n := Z.of_nat (length cells) in
  let k := Z.of_nat
             (count_occ Z.eq_dec
                (map (fun a => bin_of_rank bins (length cells) (rank cells a))
                     cells) c) in
  (n / bins <= k <= n / bins + 1)%Z /\ ((n mod bins = 0)%Z -> k = (n / bins)%Z).
Proof.
  intros Hb Hnd Hc n k. subst k.
  rewrite <- (map_map (rank cells) (bin_of_rank bins (length cells))).
  assert (Hperm : Permutation
            (map (bin_of_rank bins (length cells)) (map (rank cells) cells))
            (map (bin_of_rank bins (length cells)) (seq 0 (length cells))))
    by (apply Permutation_map, ranks_permutation; exact Hnd).
  rewrite (proj1 (Permutation_count_occ Z.eq_dec _ _) Hperm c).
  destruct (length cells) as [|n'] eqn:En.
  - subst n. simpl. rewrite Z.div_0_l by lia. split; [lia|reflexivity].
  - pose proof (cdiv_bounds bins n c Hb ltac:(lia) Hc) as (Hlo & Hmid & Hhi).
    pose proof (group_size bins n c Hb ltac:(lia) Hc) as [Hsize Hexact].
    rewrite (count_occ_interval (bin_of_rank bins (S n')) c
               (Z.to_nat (cdiv (c * n) bins))
               (Z.to_nat (cdiv ((c + 1) * n) bins))).
    + subst n. lia.
    + lia.
    + intros r. rewrite (bin_of_rank_interval bins (S n') r c Hb ltac:(lia)).
      subst n. lia.
Qed.

(** The groups follow the order of the values: a smaller number is never
    put into a higher group. *)
Lemma bin_of_rank_monotone (bins : Z) (cells : list (Q * nat))
    (a b : Q * nat) :
  (0 < bins)%Z -> In a cells -> In b cells -> (fst a < fst b)%Q ->
  (bin_of_rank bins (length cells) (rank cells a)
   <= bin_of_rank bins (length cells) (rank cells b))%Z.
Proof.
  intros Hb Ha Hin Hlt. unfold bin_of_rank.
  assert (Hab : before a b = true) by (apply before_iff; now left).
  pose proof (rank_lt cells a b Ha Hab) as Hrank.
  pose proof (rank_bound cells b Hin) as Hbound.
  apply Z.div_le_mono; [lia|nia].
Qed.

End QuantileRows.

Section QuantileCompute.

Import Quantiles.

Lemma length_valid_from_where_row (mask : list bool) :
  forall (data : list (option Q)) (i : nat),
    length (valid_from i (where_row mask data)) = remaining mask data.
Proof.
  unfold where_row, remaining.
  induction mask as [|m mask IH]; intros data i; [reflexivity|].
  destruct data as [|d data]; [reflexivity|].
  cbn [combine map filter fst snd].
  destruct m, d as [v|]; cbn [valid_from andb is_number length];
    now rewrite IH.
Qed.

Lemma where_row_masked_out (mask : list bool) :
  forall data data' : list (option Q),
    length data' = length data ->
    (forall j, nth_error mask j = Some true ->
               nth_error data' j = nth_error data j) ->
    where_row mask data' = where_row mask data.
Proof.
  unfold where_row.
  induction mask as [|m mask IH]; intros data data' Hlen Hagree;
    [reflexivity|].
  destruct data as [|d data], data' as [|d' data']; try discriminate;
    [reflexivity|].
  cbn [combine map fst snd]. f_equal.
  - destruct m; [|reflexivity].
    specialize (Hagree 0%nat eq_refl). simpl in Hagree. congruence.
  - apply IH; [simpl in Hlen; lia|].
    intros j Hj. exact (Hagree (S j) Hj).
Qed.

Lemma nth_error_combine {A B : Type} (l : list A) (l' : list B) :
  forall j a b,
    nth_error l j = Some a -> nth_error l' j = Some b ->
    nth_error (combine l l') j = Some (a, b).
Proof.
  revert l'. induction l as [|x l IH]; intros l' j a b Ha Hb.
  - destruct j; discriminate.
  - destruct l' as [|y l']; [destruct j; discriminate|].
    destruct j as [|j]; simpl in *.
    + congruence.
    + now apply IH.
Qed.

(** Each date row is computed from that row of the data and of the mask
    alone. *)
Lemma compute_row_wise (bins : Z) (data : list (list (option Q)))
    (mask : list (list bool)) (i : nat) (mrow : list bool)
    (drow : list (option Q)) :
  nth_error mask i = Some mrow -> nth_error data i = Some drow ->
  nth_error (_compute bins data mask) i = Some (compute_row bins mrow drow).
Proof.
  intros Hm Hd. unfold _compute, quantiles, np_where, compute_row.
  rewrite !nth_error_map.
  now rewrite (nth_error_combine mask data i mrow drow Hm Hd).
Qed.

End QuantileCompute.

(** C5.  For a data array, a mask of the same shape and a number of bins,
    every date row of the result of [Quantiles._compute] is computed from
    that row of the data and the mask alone; in it a cell outside the mask
    and a NaN cell inside the mask hold the missing value -1; every other
    cell holds a group code, in 0, ..., bins-1 for a positive number of
    bins; each of the groups 0, ..., bins-1 has n / bins members or one
    more (exactly n / bins when bins divides n), for n the number of cells
    of the row inside the mask that hold a number; and the values at cells
    outside the mask do not change the row. *)
Theorem quantiles_compute_spec :
  forall (bins : Z) (data : list (list (option Q))) (mask : list (list bool))
         (i : nat) (mrow : list bool) (drow : list (option Q)),
    nth_error mask i = Some mrow ->
    nth_error data i = Some drow ->
    length mrow = length drow ->
    exists orow : list Z,
      nth_error (Quantiles._compute bins data mask) i = Some orow /\
      orow = Quantiles.compute_row bins mrow drow /\
      length orow = length drow /\
      (forall j, nth_error mrow j = Some false ->
                 nth_error orow j = Some Quantiles.missing_value) /\
      (forall j, nth_error mrow j = Some true ->
                 nth_error drow j = Some None ->
                 nth_error orow j = Some Quantiles.missing_value) /\
      (forall j v, nth_error mrow j = Some true ->
                   nth_error drow j = Some (Some v) ->
                   exists c, nth_error orow j = Some c /\
                             ((0 < bins)%Z -> (0 <= c < bins)%Z)) /\
      (forall c, (0 <= c < bins)%Z ->
         let n := Z.of_nat (Quantiles.remaining mrow drow) in
         let k := Z.of_nat (count_occ Z.eq_dec orow c) in
         (n / bins <= k <= n / bins + 1)%Z /\
         ((n mod bins = 0)%Z -> k = (n / bins)%Z)) /\
      (forall drow' : list (option Q),
          length drow' = length drow ->
          (forall j, nth_error mrow j = Some true ->
                     nth_error drow' j = nth_error drow j) ->
          Quantiles.compute_row bins mrow drow' = orow).
Proof.
  intros bins data mask i mrow drow Hm Hd Hshape.
  exists (Quantiles.compute_row bins mrow drow).
  split; [now apply compute_row_wise|]. split; [reflexivity|].
  unfold Quantiles.compute_row, Quantiles.qcut.
  set (row := Quantiles.where_row mrow drow).
  set (cells := Quantiles.valid_from 0 row).
  assert (Hmasked : forall j, nth_error mrow j = Some false ->
                              nth_error row j = Some None).
  { intros j Hj.
    destruct (nth_error drow j) as [d|] eqn:Ed.
    - exact (nth_error_where_row mrow drow j false d Hj Ed).
    - apply nth_error_None in Ed.
      assert (j < length mrow)%nat by (apply nth_error_Some; congruence).
      lia. }
  assert (Hpop : forall c, (0 <= c < bins)%Z ->
            let n := Z.of_nat (Quantiles.remaining mrow drow) in
            let k := Z.of_nat
                       (count_occ Z.eq_dec
                          (map (fun x => Quantiles.astype_int64
                                           (Quantiles.fill_missing x))
                               (Quantiles.qcut_from cells bins 0 row)) c) in
            (n / bins <= k <= n / bins + 1)%Z /\
            ((n mod bins = 0)%Z -> k = (n / bins)%Z)).
  { intros c Hc. assert (Hb : (0 < bins)%Z) by lia.
    rewrite count_occ_qcut_from
      by (unfold Quantiles.missing_value; lia).
    rewrite <- (length_valid_from_where_row mrow drow 0). fold row cells.
    apply (group_population bins cells c Hb); [|assumption].
    apply valid_from_NoDup. }
  split; [|split; [|split; [|split; [|split]]]].
  - rewrite length_map, length_qcut_from. subst row.
    now apply length_where_row.
  - intros j Hj. rewrite nth_error_map.
    now rewrite (nth_error_qcut_from_None cells bins row 0 j (Hmasked j Hj)).
  - intros j Hj Hnan. rewrite nth_error_map.
    pose proof (nth_error_where_row mrow drow j true None Hj Hnan) as Hrow.
    fold row in Hrow.
    now rewrite (nth_error_qcut_from_None cells bins row 0 j Hrow).
  - intros j v Hj Hv. rewrite nth_error_map.
    pose proof (nth_error_where_row mrow drow j true (Some v) Hj Hv) as Hrow.
    fold row in Hrow.
    destruct (nth_error_qcut_from_Some cells bins row 0 j v Hrow)
      as [Hin Hnth].
    rewrite Hnth. cbn [option_map Quantiles.fill_missing].
    rewrite astype_int64_inject_Z. eexists. split; [reflexivity|].
    intros Hb. apply bin_of_rank_range; [exact Hb|].
    now apply rank_bound.
  - exact Hpop.
  - intros drow' Hlen Hagree.
    now rewrite (where_row_masked_out mrow drow drow' Hlen Hagree).
Qed.

(** Witness of C5: the first sample row, 3 1 NaN 2 9 4 with the 9 masked
    out, in two bins. *)
Lemma quantiles_compute_spec_witness :
  nth_error (Quantiles._compute 2 sample_scores sample_mask) 0
  = Some [1; 0; -1; 0; -1; 1]%Z.
Proof.
  destruct (quantiles_compute_spec 2 sample_scores sample_mask 0
              [true; true; true; true; false; true]
              [Some 3%Q; Some 1%Q; None; Some 2%Q; Some 9%Q; Some 4%Q]
              eq_refl eq_refl eq_refl)
    as (orow & Hrow & Heq & _).
  rewrite Hrow, Heq. reflexivity.
Defined.

(** * Further properties of the code *)

(** ** Position and Transaction *)

(** ** Position.update: last sale and accumulation *)

(** X1.  [update] never moves the last sale back in time: for a
    transaction on the position's asset, a position with last sale date
    [d] keeps a last sale date at or after [d]; a transaction stamped at
    or before [d] leaves the last sale price and date as they were; a
    transaction that leaves a nonzero total and is stamped after [d] (or
    meets no last sale date at all) sets them to its own price and
    timestamp. *)
Theorem update_last_sale_never_regresses :
  forall (p : Position) (t : Transaction.Transaction),
    asset_eqb (asset p) (Transaction.asset t) = true ->
    exists p', update p t = Ok p' /\
      (forall d, last_sale_date p = Some d ->
         exists d', last_sale_date p' = Some d' /\ (d <= d')%Z) /\
      (forall d, last_sale_date p = Some d -> (Transaction.dt t <= d)%Z ->
         last_sale_date p' = Some d /\
         last_sale_price p' = last_sale_price p) /\
      (~ amount p + Transaction.amount t == 0 ->
       (last_sale_date p = None \/
        exists d, last_sale_date p = Some d /\ (d < Transaction.dt t)%Z) ->
       last_sale_date p' = Some (Transaction.dt t) /\
       last_sale_price p' = Transaction.price t).
Proof.
  intros p t Hasset. unfold update. rewrite Hasset.
  cbv beta iota zeta. cbn [negb].
  eexists. split; [reflexivity|].
  destruct (Qeq_bool (amount p + Transaction.amount t) 0) eqn:Etot.
  - apply Qeq_bool_eq in Etot. cbn.
    split; [|split].
    + intros d Hd. exists d. split; [exact Hd|lia].
    + intros d Hd _. split; [exact Hd|reflexivity].
    + intros Hne. contradiction.
  - assert (Hcases :
      forall q : Position,
        last_sale_date q = last_sale_date p ->
        last_sale_price q = last_sale_price p ->
        let p' := set_amount
                    match commission_applies p t with
                    | Some c => amount p + Transaction.amount t - c
                    | None => amount p + Transaction.amount t
                    end
                    (if is_newer (Transaction.dt t) (last_sale_date q)
                     then set_last_sale (Transaction.price t)
                            (Transaction.dt t) q
                     else q) in
        (forall d, last_sale_date p = Some d ->
           exists d', last_sale_date p' = Some d' /\ (d <= d')%Z) /\
        (forall d, last_sale_date p = Some d -> (Transaction.dt t <= d)%Z ->
           last_sale_date p' = Some d /\
           last_sale_price p' = last_sale_price p) /\
        (~ amount p + Transaction.amount t == 0 ->
         (last_sale_date p = None \/
          exists d, last_sale_date p = Some d /\ (d < Transaction.dt t)%Z) ->
         last_sale_date p' = Some (Transaction.dt t) /\
         last_sale_price p' = Transaction.price t)).
    { intros q Hqd Hqp p'. subst p'. unfold is_newer. rewrite Hqd.
      destruct (last_sale_date p) as [d0|] eqn:Ed.
      - destruct (Z.ltb_spec d0 (Transaction.dt t)) as [Hlt|Hge]; cbn.
        + split; [|split].
          * intros d Hd. injection Hd as <-.
            eexists. split; [reflexivity|lia].
          * intros d Hd Hle. injection Hd as <-. lia.
          * intros _ _. split; reflexivity.
        + rewrite Hqd, Hqp. split; [|split].
          * intros d Hd. injection Hd as <-.
            eexists. split; [reflexivity|lia].
          * intros d Hd _. injection Hd as <-. split; reflexivity.
          * intros _ [Hnone|(d & Hd & Hlt)]; [discriminate|].
            injection Hd as <-. lia.
      - cbn. split; [|split].
        + intros d Hd. discriminate.
        + intros d Hd. discriminate.
        + intros _ _. split; reflexivity. }
    destruct (negb (Qeq_bool (copysign1 (amount p))
                      (copysign1 (Transaction.amount t))));
      [destruct (Qlt_bool (Qabs (amount p)) (Qabs (Transaction.amount t)))|];
      apply Hcases; reflexivity.
Qed.

(** Witness of X1: a fill stamped 1 arriving at a position whose last sale
    is dated 5 leaves the last sale alone. *)
Lemma update_last_sale_never_regresses_witness :
  exists p',
    update (Position.mk btc_usd 10 100 130 (Some 5%Z)) buy_10_at_100 = Ok p' /\
    last_sale_date p' = Some 5%Z /\ last_sale_price p' = 130.
Proof.
  destruct (update_last_sale_never_regresses
              (Position.mk btc_usd 10 100 130 (Some 5%Z)) buy_10_at_100
              eq_refl) as (p' & Hup & _ & Hold & _).
  exists p'. split; [exact Hup|].
  apply (Hold 5%Z); [reflexivity|].
  simpl. lia.
Defined.





(** X6.  A transaction built by [create_transaction] carries no commission:
    applied to a position of the order's asset it changes the amount by
    exactly the transaction's amount. *)
Theorem create_transaction_update_amount :
  forall (p : Position) (order : Transaction.Order) (dt : Z) (price amount' : Q),
    asset_eqb (asset p) (Transaction.order_asset order) = true ->
    exists p',
      update p (Transaction.create_transaction order dt price amount') = Ok p' /\
      amount p' = amount p + amount'.
Proof.
  intros p order dt price amount' Hasset.
  unfold update, commission_applies. cbn [Transaction.create_transaction
    Transaction.asset Transaction.commission Transaction.amount].
  rewrite Hasset. cbn [negb].
  eexists. split; [reflexivity|]. reflexivity.
Qed.

Lemma create_transaction_update_amount_witness :
  exists p',
    update long_10_at_100
      (Transaction.create_transaction (Transaction.mkOrder btc_usd "o6") 7 90 (-(4)))
      = Ok p' /\
    amount p' == 6.
Proof.
  destruct (create_transaction_update_amount long_10_at_100
              (Transaction.mkOrder btc_usd "o6") 7 90 (-(4)) eq_refl)
    as (p' & Hup & Ham).
  exists p'. split; [exact Hup|]. rewrite Ham. reflexivity.
Defined.

(** ** Position.adjust_commission_cost_basis *)







(** ** Rounding and Position.handle_split *)








(** ** The session calendar and the pricing loader *)

Section CalendarFacts.

Import CryptoPricingLoader.
Local Open Scope Z_scope.

(** ** _shift_dates: errors, order and composition *)

(** Later sessions of an ordered calendar are strictly later dates. *)
Lemma strictly_increasing_nth_lt (dates : list Z) :
  strictly_increasing dates = true ->
  forall i j x y,
    nth_error dates i = Some x -> nth_error dates j = Some y ->
    (i < j)%nat -> x < y.
Proof.
  induction dates as [|d ds IH]; intros Hs i j x y Hi Hj Hij.
  - destruct i; discriminate.
  - destruct j as [|j]; [lia|]. simpl in Hj.
    destruct i as [|i]; simpl in Hi.
    + injection Hi as <-. apply nth_error_In in Hj.
      exact (strictly_increasing_head_lt _ _ _ Hs Hj).
    + apply (IH (strictly_increasing_tail _ _ Hs) i j); auto. lia.
Qed.

(** Indexing from the end: [dates[k]] for [-len <= k < 0]. *)
Lemma getitem_negative (dates : list Z) (k : Z) (i : nat) (d : Z) :
  k < 0 -> Z.to_nat (Z.of_nat (length dates) + k) = i ->
  0 <= Z.of_nat (length dates) + k ->
  nth_error dates i = Some d ->
  getitem dates k = Ok d.
Proof.
  intros Hk Hi Hlo Hd. unfold getitem.
  assert (Hlen : (i < length dates)%nat)
    by (apply nth_error_Some; congruence).
  destruct (Z.ltb_spec k 0); [|lia].
  destruct (Z.ltb_spec (Z.of_nat (length dates) + k) 0); [lia|].
  destruct (Z.leb_spec (Z.of_nat (length dates))
              (Z.of_nat (length dates) + k)); [lia|].
  simpl. now rewrite Hi, Hd.
Qed.

Lemma nth_error_exists (dates : list Z) (i : nat) :
  (i < length dates)%nat -> exists d, nth_error dates i = Some d.
Proof.
  intros H. destruct (nth_error dates i) eqn:E; [eauto|].
  apply nth_error_None in E. lia.
Qed.

(** The outcome of [_shift_dates] on a calendar with at least one
    session, by cases on the two dates. *)
Lemma shift_dates_cases (dates : list Z) (n : nat) (d0 dn shift : Z)
    (s e : Z) :
  strictly_increasing dates = true ->
  length dates = S n ->
  nth_error dates 0 = Some d0 ->
  nth_error dates n = Some dn ->
  0 <= shift ->
  (~ In s dates /\ s < d0
   /\ _shift_dates dates s e shift = Raise NoFurtherDataError)
  \/ (~ In s dates /\ d0 <= s
      /\ _shift_dates dates s e shift = Raise ValueError)
  \/ (exists i, nth_error dates i = Some s /\ Z.of_nat i < shift
      /\ _shift_dates dates s e shift = Raise NoFurtherDataError)
  \/ (exists i, nth_error dates i = Some s /\ shift <= Z.of_nat i
      /\ ~ In e dates /\ dn < e
      /\ _shift_dates dates s e shift = Raise NoFurtherDataError)
  \/ (exists i, nth_error dates i = Some s /\ shift <= Z.of_nat i
      /\ ~ In e dates /\ e <= dn
      /\ _shift_dates dates s e shift = Raise ValueError)
  \/ (exists i j a b,
        nth_error dates i = Some s /\ shift <= Z.of_nat i
        /\ nth_error dates j = Some e
        /\ nth_error dates (i - Z.to_nat shift) = Some a
        /\ nth_error dates
             (if Z.of_nat j <? shift
              then S n + j - Z.to_nat shift else j - Z.to_nat shift)
           = Some b
        /\ _shift_dates dates s e shift = Ok (a, b)).
Proof.
  intros Hord Hlen Hfirst Hlast Hshift.
  destruct (in_dec Z.eq_dec s dates) as [Hs|Hs].
  - apply In_nth_error in Hs. destruct Hs as [i Hi].
    assert (Hilen : (i < length dates)%nat)
      by (apply nth_error_Some; congruence).
    destruct (Z.lt_ge_cases (Z.of_nat i) shift) as [Hlt|Hge].
    + right. right. left. exists i. repeat split; auto.
      eapply shift_dates_shift_too_far; eauto.
    + pose proof (shift_dates_after_start Hord Hlen Hlast i s e Hi Hge)
        as Hafter.
      destruct (in_dec Z.eq_dec e dates) as [He|He].
      * right. right. right. right. right.
        apply In_nth_error in He. destruct He as [j Hj].
        assert (Hjlen : (j < length dates)%nat)
          by (apply nth_error_Some; congruence).
        destruct (nth_error_exists dates (i - Z.to_nat shift) ltac:(lia))
          as [a Ha].
        rewrite Hafter, (get_loc_nth_error dates Hord _ _ Hj). cbn [bind].
        rewrite (getitem_nth_error dates (Z.of_nat i - shift)
                   (i - Z.to_nat shift) a) by (try exact Ha; lia).
        cbn [bind].
        set (idx := if Z.of_nat j <? shift
                    then (S n + j - Z.to_nat shift)%nat
                    else (j - Z.to_nat shift)%nat).
        assert (Hidx : (idx < length dates)%nat)
          by (subst idx; destruct (Z.ltb_spec (Z.of_nat j) shift); lia).
        destruct (nth_error_exists dates idx Hidx) as [b Hb].
        exists i, j, a, b.
        split; [exact Hi|]. split; [exact Hge|]. split; [exact Hj|].
        split; [exact Ha|]. split; [exact Hb|].
        subst idx.
        destruct (Z.ltb_spec (Z.of_nat j) shift) as [Hwrap|Hnowrap].
        -- rewrite (getitem_negative dates (Z.of_nat j - shift)
                      (S n + j - Z.to_nat shift) b) by (try exact Hb; lia).
           reflexivity.
        -- rewrite (getitem_nth_error dates (Z.of_nat j - shift)
                      (j - Z.to_nat shift) b) by (try exact Hb; lia).
           reflexivity.
      * rewrite (get_loc_not_In _ _ He) in Hafter. cbn [bind] in Hafter.
        destruct (Z.ltb_spec dn e) as [Hpast|Hin].
        -- right. right. right. left. exists i. repeat split; auto.
        -- right. right. right. right. left. exists i. repeat split; auto.
  - destruct (Z.lt_ge_cases s d0) as [Hlt|Hge].
    + left. repeat split; auto.
      eapply shift_dates_start_before_first; eauto.
    + right. left. repeat split; auto.
      eapply shift_dates_start_not_session; eauto.
Qed.

Lemma session_index_unique (dates : list Z) (i j : nat) (x : Z) :
  strictly_increasing dates = true ->
  nth_error dates i = Some x -> nth_error dates j = Some x -> i = j.
Proof.
  intros Hord Hi Hj.
  pose proof (get_loc_nth_error dates Hord _ _ Hi) as H1.
  pose proof (get_loc_nth_error dates Hord _ _ Hj) as H2.
  congruence.
Qed.

(** An answer of [_shift_dates] means that start is a session at least
    [shift] sessions into the calendar and end is a session. *)
Lemma shift_dates_ok_inv (dates : list Z) (shift s e : Z) (ab : Z * Z) :
  strictly_increasing dates = true ->
  0 <= shift ->
  _shift_dates dates s e shift = Ok ab ->
  (exists i, nth_error dates i = Some s /\ shift <= Z.of_nat i)
  /\ In e dates.
Proof.
  intros Hord Hshift Hok.
  destruct dates as [|d0 ds] eqn:Ed; [discriminate|].
  rewrite <- Ed in *.
  assert (Hlen : length dates = S (length ds)) by (rewrite Ed; reflexivity).
  assert (Hfirst : nth_error dates 0 = Some d0) by (rewrite Ed; reflexivity).
  destruct (nth_error_exists dates (length ds) ltac:(lia)) as [dn Hlast].
  destruct (shift_dates_cases dates (length ds) d0 dn shift s e
              Hord Hlen Hfirst Hlast Hshift)
    as [(_ & _ & Hr)
       |[(_ & _ & Hr)
        |[(i & _ & _ & Hr)
         |[(i & _ & _ & _ & _ & Hr)
          |[(i & _ & _ & _ & _ & Hr)
           |(i & j & a & b & Hi & Hge & Hj & _ & _ & _)]]]]];
    try congruence.
  split; [exists i; auto|eapply nth_error_In; eauto].
Qed.

(** X7.  The outcomes of [_shift_dates] on an ordered calendar D0..Dn with
    shift >= 0.  It returns a pair exactly when start is a session Di with
    i >= shift and end is a session; it raises NoFurtherDataError exactly
    when start is before D0, or start is a session Di and either i < shift
    or end is after Dn; it raises ValueError exactly when start is not a
    session and not before D0, or start is a session Di with i >= shift and
    end is neither a session nor after Dn; it raises nothing else. *)
Theorem shift_dates_outcomes :
  forall (dates : list Z) (n : nat) (d0 dn shift s e : Z),
    strictly_increasing dates = true ->
    length dates = S n ->
    nth_error dates 0 = Some d0 ->
    nth_error dates n = Some dn ->
    0 <= shift ->
    let r := _shift_dates dates s e shift in
    ((exists ab, r = Ok ab) <->
     (exists i, nth_error dates i = Some s /\ shift <= Z.of_nat i)
     /\ In e dates) /\
    (r = Raise NoFurtherDataError <->
     s < d0
     \/ exists i, nth_error dates i = Some s
                  /\ (Z.of_nat i < shift \/ dn < e)) /\
    (r = Raise ValueError <->
     (~ In s dates /\ d0 <= s)
     \/ exists i, nth_error dates i = Some s /\ shift <= Z.of_nat i
                  /\ ~ In e dates /\ e <= dn) /\
    (forall err, r = Raise err ->
                 err = NoFurtherDataError \/ err = ValueError).
Proof.
  intros dates n d0 dn shift s e Hord Hlen Hfirst Hlast Hshift r.
  assert (Hbefore : forall x, x < d0 -> ~ In x dates)
    by (intros x Hx; eapply before_first_not_session; eauto).
  assert (Hafter : forall x, dn < x -> ~ In x dates)
    by (intros x Hx; eapply after_last_not_session; eauto).
  assert (Huniq : forall i j, nth_error dates i = Some s ->
                              nth_error dates j = Some s -> i = j)
    by (intros i j; apply session_index_unique; exact Hord).
  destruct (shift_dates_cases dates n d0 dn shift s e
              Hord Hlen Hfirst Hlast Hshift)
    as [(Hs & Hlt & Hr)
       |[(Hs & Hge & Hr)
        |[(i & Hi & Hlt & Hr)
         |[(i & Hi & Hge & He & Hpast & Hr)
          |[(i & Hi & Hge & He & Hin & Hr)
           |(i & j & a & b & Hi & Hge & Hj & Ha & Hb & Hr)]]]]];
    subst r; rewrite Hr.
  - split; [|split; [|split]].
    + split; [intros [ab H]; discriminate|].
      intros [(i & Hi & _) _]. exfalso. apply Hs. eapply nth_error_In; eauto.
    + split; [intros _; now left|reflexivity].
    + split; [discriminate|].
      intros [[_ H]|(i & Hi & _)]; [lia|].
      exfalso. apply Hs. eapply nth_error_In; eauto.
    + intros err H. injection H as <-. now left.
  - split; [|split; [|split]].
    + split; [intros [ab H]; discriminate|].
      intros [(i & Hi & _) _]. exfalso. apply Hs. eapply nth_error_In; eauto.
    + split; [discriminate|].
      intros [H|(i & Hi & _)]; [lia|].
      exfalso. apply Hs. eapply nth_error_In; eauto.
    + split; [intros _; left; now split|reflexivity].
    + intros err H. injection H as <-. now right.
  - assert (Hd0 : d0 <= s)
      by (destruct (Z.lt_ge_cases s d0) as [H|H]; [|exact H];
          exfalso; apply (Hbefore s H); eapply nth_error_In; eauto).
    split; [|split; [|split]].
    + split; [intros [ab H]; discriminate|].
      intros [(i' & Hi' & Hge) _]. rewrite (Huniq i' i Hi' Hi) in Hge. lia.
    + split; [|reflexivity]. intros _. right. exists i. auto.
    + split; [discriminate|].
      intros [[Hs _]|(i' & Hi' & Hge & _)].
      * exfalso. apply Hs. eapply nth_error_In; eauto.
      * rewrite (Huniq i' i Hi' Hi) in Hge. lia.
    + intros err H. injection H as <-. now left.
  - split; [|split; [|split]].
    + split; [intros [ab H]; discriminate|].
      intros [_ H]. contradiction.
    + split; [|reflexivity]. intros _. right. exists i. auto.
    + split; [discriminate|].
      intros [[Hs _]|(i' & _ & _ & _ & Hle)]; [|lia].
      exfalso. apply Hs. eapply nth_error_In; eauto.
    + intros err H. injection H as <-. now left.
  - assert (Hd0 : d0 <= s)
      by (destruct (Z.lt_ge_cases s d0) as [H|H]; [|exact H];
          exfalso; apply (Hbefore s H); eapply nth_error_In; eauto).
    split; [|split; [|split]].
    + split; [intros [ab H]; discriminate|].
      intros [_ H]. contradiction.
    + split; [discriminate|].
      intros [H|(i' & Hi' & [Hlt|Hpast])]; [lia| |lia].
      rewrite (Huniq i' i Hi' Hi) in Hlt. lia.
    + split; [|reflexivity]. intros _. right. exists i. auto.
    + intros err H. injection H as <-. now right.
  - assert (Hd0 : d0 <= s)
      by (destruct (Z.lt_ge_cases s d0) as [H|H]; [|exact H];
          exfalso; apply (Hbefore s H); eapply nth_error_In; eauto).
    assert (He : In e dates) by (eapply nth_error_In; eauto).
    split; [|split; [|split]].
    + split; [|intros _; eexists; reflexivity].
      intros _. split; [exists i; auto|exact He].
    + split; [discriminate|].
      intros [H|(i' & Hi' & [Hlt|Hpast])]; [lia| |].
      * rewrite (Huniq i' i Hi' Hi) in Hlt. lia.
      * exfalso. exact (Hafter e Hpast He).
    + split; [discriminate|].
      intros [[Hs _]|(i' & _ & _ & Hne & _)]; [|contradiction].
      exfalso. apply Hs. eapply nth_error_In; eauto.
    + intros err H. discriminate.
Qed.

(** Witness of X7: on the calendar 10, 20, 30, 40 a query that starts at
    the first session cannot be shifted back by one. *)
Lemma shift_dates_outcomes_witness :
  _shift_dates sample_calendar 10 30 1 = Raise NoFurtherDataError.
Proof.
  destruct (shift_dates_outcomes sample_calendar 3 10 40 1 10 30
              eq_refl eq_refl eq_refl eq_refl ltac:(lia))
    as (_ & Hnfd & _).
  apply Hnfd. right. exists 0%nat. split; [reflexivity|]. left. lia.
Defined.

(** What [_shift_dates] returns for two sessions that lie at least [shift]
    sessions into the calendar. *)
Lemma shift_dates_sessions (dates : list Z) (shift : Z) (i j : nat)
    (s e : Z) :
  strictly_increasing dates = true ->
  0 <= shift ->
  nth_error dates i = Some s -> nth_error dates j = Some e ->
  shift <= Z.of_nat i -> shift <= Z.of_nat j ->
  exists a b,
    nth_error dates (i - Z.to_nat shift) = Some a /\
    nth_error dates (j - Z.to_nat shift) = Some b /\
    _shift_dates dates s e shift = Ok (a, b).
Proof.
  intros Hord Hshift Hi Hj Hsi Hsj.
  assert (Hilen : (i < length dates)%nat)
    by (apply nth_error_Some; congruence).
  assert (Hjlen : (j < length dates)%nat)
    by (apply nth_error_Some; congruence).
  destruct (nth_error_exists dates (i - Z.to_nat shift) ltac:(lia))
    as [a Ha].
  destruct (nth_error_exists dates (j - Z.to_nat shift) ltac:(lia))
    as [b Hb].
  exists a, b. split; [exact Ha|]. split; [exact Hb|].
  unfold _shift_dates.
  rewrite (get_loc_nth_error dates Hord _ _ Hi). cbn [bind].
  destruct (Z.ltb_spec (Z.of_nat i) shift); [lia|].
  rewrite (get_loc_nth_error dates Hord _ _ Hj). cbn [bind].
  rewrite (getitem_nth_error dates (Z.of_nat i - shift)
             (i - Z.to_nat shift) a) by (try exact Ha; lia).
  cbn [bind].
  rewrite (getitem_nth_error dates (Z.of_nat j - shift)
             (j - Z.to_nat shift) b) by (try exact Hb; lia).
  reflexivity.
Qed.

(** X8.  No look-ahead: when [_shift_dates] answers a query whose start
    is not after its end, on an ordered calendar and with shift >= 0, both
    returned dates are sessions, the returned start is not after the
    returned end, and neither is after the date it was asked for; with
    shift >= 1 each is strictly before the date it was asked for. *)
Theorem shift_dates_no_look_ahead :
  forall (dates : list Z) (shift s e a b : Z),
    strictly_increasing dates = true ->
    0 <= shift ->
    s <= e ->
    _shift_dates dates s e shift = Ok (a, b) ->
    In a dates /\ In b dates /\ a <= b /\ a <= s /\ b <= e /\
    (1 <= shift -> a < s /\ b < e).
Proof.
  intros dates shift s e a b Hord Hshift Hse Hok.
  destruct (shift_dates_ok_inv dates shift s e (a, b) Hord Hshift Hok)
    as [(i & Hi & Hsi) He].
  apply In_nth_error in He. destruct He as [j Hj].
  assert (Hij : (i <= j)%nat).
  { destruct (Nat.le_gt_cases i j) as [H|H]; [exact H|].
    pose proof (strictly_increasing_nth_lt dates Hord j i e s Hj Hi H).
    lia. }
  destruct (shift_dates_sessions dates shift i j s e Hord Hshift Hi Hj Hsi
              ltac:(lia)) as (a' & b' & Ha & Hb & Hr).
  rewrite Hr in Hok. injection Hok as <- <-.
  split; [eapply nth_error_In; eauto|].
  split; [eapply nth_error_In; eauto|].
  split; [eapply (strictly_increasing_nth_le dates Hord); eauto; lia|].
  split; [eapply (strictly_increasing_nth_le dates Hord); eauto; lia|].
  split; [eapply (strictly_increasing_nth_le dates Hord); eauto; lia|].
  intros Hpos. split;
    eapply (strictly_increasing_nth_lt dates Hord); eauto; lia.
Qed.

(** Witness: on the calendar 10, 20, 30, 40 the query 20..40 shifted by
    one is answered 10..30. *)
Lemma shift_dates_no_look_ahead_witness :
  _shift_dates sample_calendar 20 40 1 = Ok (10, 30)
  /\ (10 < 20 /\ 30 < 40)%Z.
Proof.
  split; [reflexivity|].
  destruct (shift_dates_no_look_ahead sample_calendar 1 20 40 10 30
              eq_refl ltac:(lia) ltac:(lia) eq_refl)
    as (_ & _ & _ & _ & _ & Hstrict).
  apply Hstrict. lia.
Defined.

(** X9.  Shifts compose: on an ordered calendar, shifting a query back by
    [s1] sessions and the answer by [s2] more gives what shifting the
    query by [s1 + s2] gives, whenever both dates of the query are
    sessions at least [s1 + s2] sessions into the calendar. *)
Theorem shift_dates_compose :
  forall (dates : list Z) (s1 s2 : Z) (i j : nat) (s e : Z),
    strictly_increasing dates = true ->
    0 <= s1 -> 0 <= s2 ->
    nth_error dates i = Some s -> nth_error dates j = Some e ->
    s1 + s2 <= Z.of_nat i -> s1 + s2 <= Z.of_nat j ->
    exists a b a' b',
      _shift_dates dates s e s1 = Ok (a, b) /\
      _shift_dates dates a b s2 = Ok (a', b') /\
      _shift_dates dates s e (s1 + s2) = Ok (a', b').
Proof.
  intros dates s1 s2 i j s e Hord H1 H2 Hi Hj Hsi Hsj.
  destruct (shift_dates_sessions dates s1 i j s e Hord H1 Hi Hj
              ltac:(lia) ltac:(lia)) as (a & b & Ha & Hb & Hr1).
  destruct (shift_dates_sessions dates s2 _ _ a b Hord H2 Ha Hb
              ltac:(lia) ltac:(lia)) as (a' & b' & Ha' & Hb' & Hr2).
  destruct (shift_dates_sessions dates (s1 + s2) i j s e Hord ltac:(lia)
              Hi Hj Hsi Hsj) as (a'' & b'' & Ha'' & Hb'' & Hr12).
  exists a, b, a', b'. split; [exact Hr1|]. split; [exact Hr2|].
  rewrite Hr12. f_equal. f_equal.
  - replace (i - Z.to_nat (s1 + s2))%nat
      with (i - Z.to_nat s1 - Z.to_nat s2)%nat in Ha'' by lia.
    congruence.
  - replace (j - Z.to_nat (s1 + s2))%nat
      with (j - Z.to_nat s1 - Z.to_nat s2)%nat in Hb'' by lia.
    congruence.
Qed.

Lemma shift_dates_compose_witness :
  exists a b a' b',
    _shift_dates sample_calendar 30 40 1 = Ok (a, b) /\
    _shift_dates sample_calendar a b 1 = Ok (a', b') /\
    _shift_dates sample_calendar 30 40 (1 + 1) = Ok (a', b').
Proof.
  apply (shift_dates_compose sample_calendar 1 1 2 3 30 40);
    try reflexivity; simpl; lia.
Defined.

(** X10.  The end date can wrap around.  On an ordered calendar D0..Dn,
    when start is a session Di with i >= shift and end is a session Dj
    with j < shift (so end is before start), no error is raised: the
    returned end date is D(n+1+j-shift), counted from the calendar's end,
    which is after the requested end date and after the returned start. *)
Theorem shift_dates_end_wraps :
  forall (dates : list Z) (n : nat) (shift : Z) (i j : nat) (s e : Z),
    strictly_increasing dates = true ->
    length dates = S n ->
    nth_error dates i = Some s -> nth_error dates j = Some e ->
    shift <= Z.of_nat i -> Z.of_nat j < shift ->
    exists a b,
      nth_error dates (i - Z.to_nat shift) = Some a /\
      nth_error dates (S n + j - Z.to_nat shift) = Some b /\
      _shift_dates dates s e shift = Ok (a, b) /\
      e < b /\ a < b.
Proof.
  intros dates n shift i j s e Hord Hlen Hi Hj Hsi Hsj.
  assert (Hilen : (i < length dates)%nat)
    by (apply nth_error_Some; congruence).
  destruct (nth_error_exists dates 0 ltac:(lia)) as [d0 Hfirst].
  destruct (nth_error_exists dates n ltac:(lia)) as [dn Hlast].
  destruct (shift_dates_cases dates n d0 dn shift s e
              Hord Hlen Hfirst Hlast ltac:(lia))
    as [(Hs & _)
       |[(Hs & _)
        |[(i' & Hi' & Hlt & _)
         |[(i' & _ & _ & He & _)
          |[(i' & _ & _ & He & _)
           |(i' & j' & a & b & Hi' & Hge & Hj' & Ha & Hb & Hr)]]]]];
    try (exfalso; apply Hs; eapply nth_error_In; eauto; fail);
    try (exfalso; apply He; eapply nth_error_In; eauto; fail).
  - rewrite (session_index_unique dates i' i s Hord Hi' Hi) in Hlt. lia.
  - rewrite (session_index_unique dates i' i s Hord Hi' Hi) in Ha.
    rewrite (session_index_unique dates j' j e Hord Hj' Hj) in Hb.
    destruct (Z.ltb_spec (Z.of_nat j) shift); [|lia].
    exists a, b. split; [exact Ha|]. split; [exact Hb|].
    split; [exact Hr|]. split.
    + apply (strictly_increasing_nth_lt dates Hord j
               (S n + j - Z.to_nat shift) e b Hj Hb). lia.
    + apply (strictly_increasing_nth_lt dates Hord (i - Z.to_nat shift)
               (S n + j - Z.to_nat shift) a b Ha Hb). lia.
Qed.

(** Witness of X10: on the calendar 10, 20, 30, 40 a query from 30 back to
    10 with shift 1 is answered with (20, 40). *)
Lemma shift_dates_end_wraps_witness :
  _shift_dates sample_calendar 30 10 1 = Ok (20, 40).
Proof.
  destruct (shift_dates_end_wraps sample_calendar 3 1 2 0 30 10
              eq_refl eq_refl eq_refl eq_refl ltac:(lia) ltac:(lia))
    as (a & b & Ha & Hb & Hr & _).
  simpl in Ha, Hb. injection Ha as <-. injection Hb as <-. exact Hr.
Defined.


(** ** CryptoPricingLoader.load_adjusted_array *)

Section LoadAdjustedArrayFacts.

Variables Array Mask ColumnDType MissingValue Adjustment AssetT : Type.
Variable astype : Array -> ColumnDType -> Array.
Variable column_eqb :
  BoundColumn ColumnDType MissingValue -> BoundColumn ColumnDType MissingValue
  -> bool.

(** The first and the last of the requested dates. *)
Lemma getitem_first_last (dates : list Z) (m : nat) (first last : Z) :
  length dates = S m ->
  nth_error dates 0 = Some first -> nth_error dates m = Some last ->
  getitem dates 0 = Ok first /\ getitem dates (-1) = Ok last.
Proof.
  intros Hlen Hf Hl. split.
  - apply (getitem_nth_error dates 0 0%nat first); auto; lia.
  - apply (getitem_last dates m last Hlen Hl).
Qed.

(** X11.  The loader reads the day before.  For requested dates that
    start at session Di and end at session Dj of the loader's ordered
    calendar, with 1 <= i and 1 <= j, [load_adjusted_array] asks the reader
    for the range D(i-1) .. D(j-1) and for nothing else: two readers that
    answer this one request alike give the same result.  When the first
    requested date is the calendar's first session, the call raises
    NoFurtherDataError whatever the reader holds. *)
Theorem load_adjusted_array_reads_previous_sessions :
  forall (all_sessions dates : list Z) (m i j : nat) (first last : Z)
         (columns : list (BoundColumn ColumnDType MissingValue))
         (assets : list AssetT) (mask : Mask),
    strictly_increasing all_sessions = true ->
    length dates = S m ->
    nth_error dates 0 = Some first -> nth_error dates m = Some last ->
    nth_error all_sessions i = Some first ->
    nth_error all_sessions j = Some last ->
    (i = 0%nat ->
     forall reader,
       load_adjusted_array (Adjustment := Adjustment) astype column_eqb
         all_sessions reader columns dates assets mask
       = Raise NoFurtherDataError) /\
    ((1 <= i)%nat -> (1 <= j)%nat ->
     exists a b,
       nth_error all_sessions (i - 1) = Some a /\
       nth_error all_sessions (j - 1) = Some b /\
       forall reader reader',
         reader (map name columns) a b assets
         = reader' (map name columns) a b assets ->
         load_adjusted_array (Adjustment := Adjustment) astype column_eqb
           all_sessions reader columns dates assets mask
         = load_adjusted_array astype column_eqb
             all_sessions reader' columns dates assets mask).
Proof.
  intros all_sessions dates m i j first last columns assets mask
    Hord Hlen Hf Hl Hi Hj.
  destruct (getitem_first_last dates m first last Hlen Hf Hl) as [Hg0 Hg1].
  split.
  - intros -> reader. unfold load_adjusted_array.
    rewrite Hg0, Hg1. cbn [bind]. unfold _shift_dates.
    rewrite (get_loc_nth_error all_sessions Hord _ _ Hi). reflexivity.
  - intros Hi1 Hj1.
    destruct (shift_dates_sessions all_sessions 1 i j first last Hord
                ltac:(lia) Hi Hj ltac:(lia) ltac:(lia))
      as (a & b & Ha & Hb & Hr).
    exists a, b. split; [exact Ha|]. split; [exact Hb|].
    intros reader reader' Hsame. unfold load_adjusted_array.
    rewrite Hg0, Hg1. cbn [bind]. rewrite Hr. cbn [bind fst snd].
    now rewrite Hsame.
Qed.



End LoadAdjustedArrayFacts.

(** Witness of X11: dates 20, 30 on the calendar 10, 20, 30, 40 are read as
    10, 20. *)
Lemma load_adjusted_array_reads_previous_sessions_witness :
  exists a b,
    nth_error sample_calendar 0 = Some a /\
    nth_error sample_calendar 1 = Some b /\
    load_adjusted_array (Adjustment := unit) (Mask := list bool)
      (fun (a : list Q) (_ : string) => a) column_name_eqb
      sample_calendar (constant_reader 1) [close_column] [20; 30] [1; 2] [true]
    = load_adjusted_array (fun (a : list Q) (_ : string) => a) column_name_eqb
        sample_calendar
        (fun cols s e assets =>
           if (s =? 10) && (e =? 20) then constant_reader 1 cols s e assets
           else Raise OSError)
        [close_column] [20; 30] [1; 2] [true].
Proof.
  destruct (load_adjusted_array_reads_previous_sessions
              (list Q) (list bool) string Q unit Z
              (fun (a : list Q) (_ : string) => a) column_name_eqb
              sample_calendar [20; 30] 1 1 2 20 30 [close_column] [1; 2]
              [true] eq_refl eq_refl eq_refl eq_refl eq_refl eq_refl)
    as [_ Hread].
  destruct (Hread ltac:(lia) ltac:(lia)) as (a & b & Ha & Hb & Hsame).
  exists a, b. split; [exact Ha|]. split; [exact Hb|].
  apply Hsame.
  simpl in Ha, Hb. injection Ha as <-. injection Hb as <-. reflexivity.
Defined.



End CalendarFacts.

Section ClassifierFacts.

(** ** Classifier.element_of and Classifier.eq: which calls succeed *)




Lemma py_int_beside (m : Z) : py_int (beside m) = m.
Proof.
  unfold beside, py_int.
  destruct (Z.ltb_spec m 0) as [Hneg|Hpos].
  - assert (Hlt : Qlt_bool (inject_Z m - (1 # 2)) 0 = true).
    { apply Qlt_bool_iff.
      assert (inject_Z m < 0)%Q by (change 0%Q with (inject_Z 0);
                                    now rewrite <- Zlt_Qlt).
      lra. }
    rewrite Hlt. unfold Qceiling, Qfloor. simpl.
    pose proof (Z.div_mod (- (m * 2 + -1)) 2 ltac:(lia)).
    pose proof (Z.mod_pos_bound (- (m * 2 + -1)) 2 ltac:(lia)). lia.
  - assert (Hge : Qlt_bool (inject_Z m + (1 # 2)) 0 = false).
    { apply Qlt_bool_false_iff.
      assert (0 <= inject_Z m)%Q by (change 0%Q with (inject_Z 0);
                                     now rewrite <- Zle_Qle).
      lra. }
    rewrite Hge. unfold Qfloor. simpl.
    pose proof (Z.div_mod (m * 2 + 1) 2 ltac:(lia)).
    pose proof (Z.mod_pos_bound (m * 2 + 1) 2 ltac:(lia)). lia.
Qed.

Lemma beside_differs (m : Z) :
  py_eq (SNum (beside m)) (SNum (NInt m)) = false.
Proof.
  unfold py_eq, beside, number_value.
  destruct (Z.ltb_spec m 0); apply Qeq_bool_false_iff; cbn [number_value];
    lra.
Qed.

(** X14.  The missing-value guard of [eq] is applied before the number is
    truncated: for every integer classifier there is a number that passes
    the guard, because it differs from the missing value, and for which
    [eq] builds the comparison of [x_0] with the missing value itself. *)
Theorem eq_guard_precedes_truncation :
  forall m : Z,
    let c := Classifier.mk int64_dtype (SNum (NInt m)) in
    exists other : number,
      py_eq (SNum other) (Classifier.missing_value c) = false /\
      Classifier.eq c (SNum other)
      = Ok (Classifier.NumExprFilter
              (EqExpr X_0 (Lit (Classifier.missing_value c))) [c]).
Proof.
  intros m c. exists (beside m).
  split; [apply beside_differs|].
  unfold Classifier.eq. subst c. cbn [Classifier.missing_value Classifier.dtype].
  rewrite beside_differs. cbn. now rewrite py_int_beside.
Qed.


End ClassifierFacts.

(** ** The cache of market data *)

Section LoaderFacts.

Local Open Scope Z_scope.

(** ** The cache: hits, misses and round trips *)

(** X15.  Coverage is monotone: a table that has data for the dates
    first_date .. last_date has data for every range inside them. *)
Theorem has_data_for_dates_subrange :
  forall (df : Loader.DataFrame) (first_date last_date first' last' : Z),
    Loader.has_data_for_dates (Some df) first_date last_date = Ok true ->
    first_date <= first' -> last' <= last_date ->
    Loader.has_data_for_dates (Some df) first' last' = Ok true.
Proof.
  intros df first_date last_date first' last' H Hf Hl.
  unfold Loader.has_data_for_dates in *.
  destruct (Loader.index df) as [|d ds]; [discriminate|].
  injection H as H. apply andb_true_iff in H. destruct H as [H1 H2].
  apply Z.leb_le in H1. apply Z.geb_le in H2.
  f_equal. apply andb_true_iff. split.
  - apply Z.leb_le. lia.
  - apply Z.geb_le. eapply Z.le_trans; [exact Hl|exact H2].
Qed.

Lemma has_data_for_dates_subrange_witness :
  Loader.has_data_for_dates (Some january) 150 250 = Ok true.
Proof.
  apply (has_data_for_dates_subrange january 100 300 150 250);
    [reflexivity|lia|lia].
Defined.

(** X16.  What counts as a cache miss.  [_load_cached_data] returns [None],
    without raising, when the file does not exist, when reading it fails
    with OSError, IOError or ValueError, and when it reads as an empty
    table, however recently it was written and whatever dates are asked
    for; any other error of the read is raised to the caller.  Whenever
    [None] is returned the last record logged is the cache-miss record. *)
Theorem load_cached_data_misses :
  forall (fs : Loader.FileSystem) (filename resource_name : string)
         (first_date last_date now : Z),
    let out := Loader._load_cached_data fs filename first_date last_date now
                 resource_name in
    let path := Loader.get_data_filepath filename in
    (fs path = None -> snd out = Ok None) /\
    (forall file e,
        fs path = Some file -> Loader.from_csv file = Raise e ->
        snd out = if Loader.is_cache_read_error e then Ok None else Raise e) /\
    (forall file data,
        fs path = Some file -> Loader.from_csv file = Ok data ->
        Loader.index data = [] -> snd out = Ok None) /\
    (snd out = Ok None ->
     exists l, fst out = l ++ [Loader.cache_miss_record]).
Proof.
  intros fs filename resource_name first_date last_date now out path.
  subst out path. unfold Loader._load_cached_data.
  destruct (fs (Loader.get_data_filepath filename)) as [file|] eqn:Efile.
  - split; [discriminate|]. split; [|split].
    + intros file' e Hf He. injection Hf as <-. rewrite He.
      destruct (Loader.is_cache_read_error e); reflexivity.
    + intros file' data Hf Hd Hidx. injection Hf as <-. rewrite Hd.
      unfold Loader.empty. rewrite Hidx. reflexivity.
    + destruct (Loader.from_csv file) as [data|e].
      * destruct (Loader.empty data).
        -- intros _. exists [(Loader.INFO,
             "Loading data for {path} failed with error [{error}]."%string)].
           reflexivity.
        -- destruct (Loader.has_data_for_dates (Some data) first_date
                       last_date) as [[|]|e].
           ++ discriminate.
           ++ destruct (now - Loader.last_modified_time file
                        <=? Loader.ONE_HOUR); [discriminate|].
              intros _. exists []. reflexivity.
           ++ destruct (Loader.is_cache_read_error e); [|discriminate].
              intros _. eexists [_]. reflexivity.
      * destruct (Loader.is_cache_read_error e); [|discriminate].
        intros _. eexists [_]. reflexivity.
  - split; [reflexivity|]. split; [discriminate|]. split; [discriminate|].
    intros _. exists []. reflexivity.
Qed.

(** Witness of X16: an empty cache file written one minute ago is a
    miss. *)
Lemma load_cached_data_misses_witness :
  snd (Loader._load_cached_data
         (Loader.store Loader.no_files
            (Loader.get_data_filepath "SPY_benchmark.csv")
            (Loader.mkFile (Ok (Loader.mkDataFrame [] [])) 0))
         "SPY_benchmark.csv" 100 300 60000000000 "benchmark") = Ok None.
Proof.
  eapply (load_cached_data_misses _ "SPY_benchmark.csv" "benchmark"
            100 300 60000000000).
  - reflexivity.
  - reflexivity.
  - reflexivity.
Defined.

(** X17.  A cache hit is final.  When [_load_cached_data] returns a table,
    [ensure_benchmark_data] and [ensure_treasury_data] return that table
    and leave the files as they are, whatever the remote source would
    answer: nothing is downloaded and nothing is written. *)
Theorem ensure_data_cache_hit :
  forall (remote : Loader.Remote) (fs : Loader.FileSystem)
         (symbol : string) (first_date last_date now trading_day : Z)
         (l : Loader.Log) (data : Loader.DataFrame),
    (Loader._load_cached_data fs (Loader.get_benchmark_filename symbol)
       first_date last_date now "benchmark" = (l, Ok (Some data)) ->
     Loader.ensure_benchmark_data remote fs symbol first_date last_date now
       trading_day = Loader.mkOutcome fs l (Ok (Some data))) /\
    (Loader._load_cached_data fs (snd (Loader.INDEX_MAPPING symbol))
       (Z.max first_date
          (Loader.earliest_possible_date remote
             (fst (Loader.INDEX_MAPPING symbol))))
       last_date now "treasury" = (l, Ok (Some data)) ->
     Loader.ensure_treasury_data remote fs symbol first_date last_date now
     = Loader.mkOutcome fs l (Ok (Some data))).
Proof.
  intros remote fs symbol first_date last_date now trading_day l data.
  split.
  - intros Hhit. unfold Loader.ensure_benchmark_data. now rewrite Hhit.
  - intros Hhit. unfold Loader.ensure_treasury_data.
    destruct (Loader.INDEX_MAPPING symbol) as [loader_module filename].
    cbn [fst snd] in *. now rewrite Hhit.
Qed.

(** Witness of X17: with the table cached, a source that is down is not
    noticed. *)
Lemma ensure_data_cache_hit_witness :
  let fs := Loader.store Loader.no_files
              (Loader.get_data_filepath "SPY_benchmark.csv")
              (Loader.mkFile (Ok january) 0) in
  Loader.ensure_benchmark_data remote_down fs "SPY" 100 300 1000 1
  = Loader.mkOutcome fs [] (Ok (Some january)).
Proof.
  intros fs.
  apply (ensure_data_cache_hit remote_down fs "SPY" 100 300 1000 1 []
           january).
  reflexivity.
Defined.





(** X19.  Treasury requests are normalised.  A request that starts before
    the source's earliest possible date is served as the request starting
    at that date, and every symbol other than ^GSPTSE is served from the
    treasury source and cache file of SPY. *)
Theorem ensure_treasury_data_normalises :
  forall (remote : Loader.Remote) (fs : Loader.FileSystem) (symbol : string)
         (first_date last_date now : Z),
    (first_date
     <= Loader.earliest_possible_date remote
          (fst (Loader.INDEX_MAPPING symbol)) ->
     Loader.ensure_treasury_data remote fs symbol first_date last_date now
     = Loader.ensure_treasury_data remote fs symbol
         (Loader.earliest_possible_date remote
            (fst (Loader.INDEX_MAPPING symbol)))
         last_date now) /\
    (symbol <> "^GSPTSE"%string ->
     Loader.INDEX_MAPPING symbol = Loader.INDEX_MAPPING "SPY" /\
     let out := Loader.ensure_treasury_data remote fs symbol first_date
                  last_date now in
     let spy := Loader.ensure_treasury_data remote fs "SPY" first_date
                  last_date now in
     Loader.returned out = Loader.returned spy /\
     Loader.files out = Loader.files spy).
Proof.
  intros remote fs symbol first_date last_date now. split.
  - intros Hearly. unfold Loader.ensure_treasury_data.
    destruct (Loader.INDEX_MAPPING symbol) as [loader_module filename].
    cbn [fst] in *. now rewrite Z.max_r, Z.max_id by lia.
  - intros Hne.
    assert (Hmap : Loader.INDEX_MAPPING symbol = Loader.INDEX_MAPPING "SPY").
    { unfold Loader.INDEX_MAPPING.
      destruct (String.eqb_spec symbol "^GSPTSE"); [contradiction|].
      reflexivity. }
    split; [exact Hmap|].
    unfold Loader.ensure_treasury_data. rewrite Hmap. split; reflexivity.
Qed.

Lemma ensure_treasury_data_normalises_witness :
  Loader.returned
    (Loader.ensure_treasury_data remote_up_disk_full Loader.no_files "^FTSE"
       100 300 1000)
  = Loader.returned
      (Loader.ensure_treasury_data remote_up_disk_full Loader.no_files "SPY"
         100 300 1000).
Proof.
  destruct (ensure_treasury_data_normalises remote_up_disk_full
              Loader.no_files "^FTSE" 100 300 1000) as [_ Hsym].
  destruct (Hsym ltac:(discriminate)) as [_ [Hret _]]. exact Hret.
Defined.

Lemma string_length_append (s t : string) :
  String.length (String.append s t) = (String.length s + String.length t)%nat.
Proof. induction s as [|c s IH]; simpl; auto. Qed.

Lemma string_append_cancel_r (s1 s2 t : string) :
  String.append s1 t = String.append s2 t -> s1 = s2.
Proof.
  revert s2. induction s1 as [|c s1 IH]; intros [|c2 s2] H.
  - reflexivity.
  - apply (f_equal String.length) in H. simpl in H.
    rewrite string_length_append in H. lia.
  - apply (f_equal String.length) in H. simpl in H.
    rewrite string_length_append in H. lia.
  - simpl in H. injection H as -> H. f_equal. now apply IH.
Qed.

(** Different symbols have different benchmark cache files. *)
Lemma benchmark_path_injective (s1 s2 : string) :
  Loader.get_data_filepath (Loader.get_benchmark_filename s1)
  = Loader.get_data_filepath (Loader.get_benchmark_filename s2) ->
  s1 = s2.
Proof.
  unfold Loader.get_data_filepath, Loader.get_benchmark_filename.
  intros H. simpl in H. injection H as H.
  now apply string_append_cancel_r in H.
Qed.

(** X20.  [ensure_benchmark_data] writes at most one file, the cache file
    of its own symbol: every other path, and in particular the benchmark
    cache file of every other symbol, holds after the call what it held
    before, whatever the call returns or raises. *)
Theorem ensure_benchmark_data_frame :
  forall (remote : Loader.Remote) (fs : Loader.FileSystem) (symbol : string)
         (first_date last_date now trading_day : Z),
    let out := Loader.ensure_benchmark_data remote fs symbol first_date
                 last_date now trading_day in
    (forall path : string,
        path <> Loader.get_data_filepath (Loader.get_benchmark_filename symbol)
        -> Loader.files out path = fs path) /\
    (forall other : string,
        other <> symbol ->
        Loader.files out
          (Loader.get_data_filepath (Loader.get_benchmark_filename other))
        = fs (Loader.get_data_filepath (Loader.get_benchmark_filename other))).
Proof.
  intros remote fs symbol first_date last_date now trading_day out.
  assert (Hframe : forall path : string,
            path <> Loader.get_data_filepath
                      (Loader.get_benchmark_filename symbol) ->
            Loader.files out path = fs path).
  { intros path Hpath. subst out. unfold Loader.ensure_benchmark_data.
    destruct (Loader._load_cached_data fs _ first_date last_date now _)
      as [l [[data|]|e]]; try reflexivity.
    destruct (Loader.get_benchmark_returns remote symbol _ last_date)
      as [data|e].
    - unfold Loader.to_csv.
      destruct (Loader.to_csv_error remote _) as [e|].
      + destruct (Loader.is_file_or_network_error e); reflexivity.
      + unfold Loader.check_and_return.
        destruct (Loader.has_data_for_dates _ _ _) as [covered|e];
          cbn [Loader.files]; unfold Loader.store;
          destruct (String.eqb_spec path
                      (Loader.get_data_filepath
                         (Loader.get_benchmark_filename symbol)));
          try contradiction; reflexivity.
    - destruct (Loader.is_file_or_network_error e); reflexivity. }
  split; [exact Hframe|].
  intros other Hother. apply Hframe.
  intros Heq. apply Hother. now apply benchmark_path_injective.
Qed.


End LoaderFacts.

(** ** The chunks of an ingestion *)

Section ChunkPlanning.

Import ExchangeBundle.
Local Open Scope Z_scope.

(** ** exchange_bundle: the chunks of process_bar_data *)

Section ChunkLoop.

Variables start b : Z.
Hypothesis Hb : 0 <= b.

Let bound : Z := start + timedelta_minutes b.
Let step : Z := timedelta_minutes (b + 1).

Lemma step_pos : 0 < step.
Proof. subst step. unfold timedelta_minutes. lia. Qed.

(** What the loop has appended when it ends: the chunks that end at
    [last], one step earlier, two steps earlier, ..., as long as the end
    is after [start + timedelta(minutes=bar_count)]. *)
Lemma chunk_loop_run (fuel : nat) :
  forall (last : Z) (acc res : list Chunk),
    chunk_loop fuel start b last acc = Some res ->
    exists k : nat,
      res = acc ++ map (chunk_back b last) (seq 0 k) /\
      last - Z.of_nat k * step <= bound /\
      (forall i, (i < k)%nat -> bound < last - Z.of_nat i * step).
Proof.
  induction fuel as [|fuel IH]; intros last acc res Hrun; [discriminate|].
  cbn [chunk_loop] in Hrun. fold bound in Hrun.
  destruct (Z.ltb_spec bound last) as [Hgo|Hstop].
  - fold step in Hrun.
    destruct (IH _ _ _ Hrun) as (k & Hres & Hend & Hall).
    exists (S k). split; [|split].
    + rewrite Hres, <- app_assoc. f_equal.
      cbn [seq map app]. f_equal.
      * unfold chunk_back. f_equal. lia.
      * rewrite <- seq_shift, map_map. apply map_ext. intros i.
        unfold chunk_back. fold step. f_equal. lia.
    + lia.
    + intros [|i] Hi; [lia|]. specialize (Hall i ltac:(lia)). lia.
  - injection Hrun as <-. exists 0%nat. split; [|split].
    + cbn. now rewrite app_nil_r.
    + lia.
    + intros i Hi. lia.
Qed.

(** The loop ends: [fuel + 1] tests are enough when [last] is at most
    [fuel] steps after the bound. *)
Lemma chunk_loop_ends (fuel : nat) :
  forall (last : Z) (acc : list Chunk),
    last - bound <= Z.of_nat fuel * step ->
    exists res, chunk_loop (S fuel) start b last acc = Some res.
Proof.
  pose proof step_pos as Hstep.
  induction fuel as [|fuel IH]; intros last acc Hfuel.
  - cbn [chunk_loop]. fold bound.
    destruct (Z.ltb_spec bound last); [lia|]. eauto.
  - cbn [chunk_loop]. fold bound.
    destruct (Z.ltb_spec bound last) as [Hgo|Hstop]; [|eauto].
    fold step. apply IH. lia.
Qed.

End ChunkLoop.

Lemma rev_seq (k : nat) :
  rev (seq 0 k) = map (fun i => (k - 1 - i)%nat) (seq 0 k).
Proof.
  induction k as [|k IH]; [reflexivity|].
  rewrite seq_S at 1. rewrite rev_app_distr. cbn [rev app Nat.add].
  rewrite IH. cbn [seq map]. f_equal; [lia|].
  rewrite <- seq_shift, map_map. apply map_ext_in. intros i Hi.
  apply in_seq in Hi. lia.
Qed.

(** More periods than [limit] lie between [start] and [end] only if
    [end] is more than [limit] minutes after [start]. *)
Lemma delta_periods_exceeds (data_frequency freq : string) (start end_ : Z)
    (periods : Q) (limit : Z) :
  delta_periods data_frequency start end_ = Ok (periods, freq) ->
  0 <= limit -> (inject_Z limit < periods)%Q ->
  start + timedelta_minutes limit < end_.
Proof.
  intros Hd Hlimit Hlt. unfold delta_periods, total_seconds in Hd.
  assert (Hmin : (inject_Z limit
                  < inject_Z (end_ - start) / 1000000000 / 60)%Q).
  { assert (Hl : (0 <= inject_Z limit)%Q)
      by (change 0%Q with (inject_Z 0); now rewrite <- Zle_Qle).
    destruct (String.eqb data_frequency "minute");
      [injection Hd as <- _; exact Hlt|].
    destruct (String.eqb data_frequency "5-minute").
    { injection Hd as <- _.
      set (x := (inject_Z (end_ - start) / 1000000000 / 60)%Q) in *.
      assert (Hx : (x / 5 == x * (1 # 5))%Q) by (unfold Qdiv; reflexivity).
      rewrite Hx in Hlt. lra. }
    destruct (String.eqb data_frequency "daily"); [|discriminate].
    injection Hd as <- _.
    set (x := (inject_Z (end_ - start) / 1000000000 / 60)%Q) in *.
    assert (Hx : (x / 60 / 24 == x * (1 # 1440))%Q)
      by (unfold Qdiv; rewrite <- Qmult_assoc; reflexivity).
    rewrite Hx in Hlt. lra. }
  assert (Hq : (inject_Z (end_ - start) / 1000000000 / 60
                == inject_Z (end_ - start) * (1 # 60000000000))%Q)
    by (unfold Qdiv; rewrite <- Qmult_assoc; reflexivity).
  rewrite Hq in Hmin.
  assert (Hz : (inject_Z (limit * 60000000000) < inject_Z (end_ - start))%Q).
  { rewrite inject_Z_mult.
    change (inject_Z 60000000000) with (60000000000 # 1)%Q. lra. }
  rewrite <- Zlt_Qlt in Hz. unfold timedelta_minutes. lia.
Qed.

(** X21.  The chunks of a long range.  For an exchange with
    num_candles_limit = b >= 0 and a supported frequency, when the range
    start .. end holds more periods than b, the chunks are k >= 1 requests
    of b bars each, in chronological order, whose ends lie b + 1 minutes
    apart (for every frequency) and finish at [end]; the first of them ends
    more than b minutes, and at most 2b + 1 minutes, after [start].  The
    loop that builds them ends, and the chunks do not depend on the fuel
    once it is enough. *)
Theorem plan_chunks_long_range :
  forall (data_frequency freq : string) (start end_ b : Z) (periods : Q)
         (fuel : nat),
    delta_periods data_frequency start end_ = Ok (periods, freq) ->
    0 <= b -> (inject_Z b < periods)%Q ->
    end_ - (start + timedelta_minutes b)
      <= Z.of_nat fuel * timedelta_minutes (b + 1) ->
    exists k : nat,
      (1 <= k)%nat /\
      plan_chunks (S fuel) b periods start end_
        = Some (map (fun i => chunk_back b end_ (k - 1 - i)) (seq 0 k)) /\
      start + timedelta_minutes b
        < end_ - Z.of_nat (k - 1) * timedelta_minutes (b + 1) /\
      end_ - Z.of_nat (k - 1) * timedelta_minutes (b + 1)
        <= start + timedelta_minutes b + timedelta_minutes (b + 1).
Proof.
  intros data_frequency freq start end_ b periods fuel Hd Hb Hlt Hfuel.
  pose proof (delta_periods_exceeds _ _ _ _ _ _ Hd Hb Hlt) as Hlong.
  destruct (chunk_loop_ends start b Hb fuel end_ [] Hfuel) as [res Hres].
  destruct (chunk_loop_run start b (S fuel) end_ [] res Hres)
    as (k & Hk & Hend & Hall).
  exists k.
  assert (Hk1 : (1 <= k)%nat).
  { destruct k as [|k]; [|lia]. cbn in Hend. lia. }
  split; [exact Hk1|]. split; [|split].
  - unfold plan_chunks.
    assert (Hq : Qlt_bool (inject_Z b) periods = true)
      by (now apply Qlt_bool_iff).
    rewrite Hq, Hres, Hk. cbn [app].
    now rewrite <- map_rev, rev_seq, map_map.
  - apply (Hall (k - 1)%nat). lia.
  - replace (Z.of_nat k) with (Z.of_nat (k - 1) + 1) in Hend by lia.
    lia.
Qed.

(** Witness of X21: five minutes of minute bars fetched two bars at a
    time make one chunk, the one that ends at [end]. *)
Lemma plan_chunks_long_range_witness :
  exists k : nat,
    (1 <= k)%nat /\
    plan_chunks 3 2 (total_seconds (300000000000 - 0) / 60) 0 300000000000
      = Some (map (fun i => chunk_back 2 300000000000 (k - 1 - i)) (seq 0 k)).
Proof.
  destruct (plan_chunks_long_range "minute" "1m" 0 300000000000 2
              (total_seconds (300000000000 - 0) / 60) 2
              eq_refl ltac:(lia) ltac:(reflexivity))
    as (k & Hk & Hplan & _).
  - unfold timedelta_minutes. lia.
  - exists k. split; [exact Hk|exact Hplan].
Defined.


End ChunkPlanning.
